(** * The XFEL flood-warning watchdog (src/main.py) as a shallow embedding

    The Python class [WaterAlarm] polls a remote water sensor by SMS, drives
    three relays (red, amber, green) and texts a list of operators.  The
    object, the relay board, the modem and the console are threaded through a
    small state-and-exception monad; every gateway call asks an environment
    whether it completes or raises. *)

From Stdlib Require Import ZArith QArith String List Lia DecimalString.
From stdpp Require Import base decidable gmap strings list.

Local Open Scope string_scope.
Local Open Scope list_scope.
Local Open Scope Z_scope.

(** ** Python values *)

(** A raised exception: its class name, its message, and whether the class
    derives from [Exception] (what [except Exception] catches);
    [KeyboardInterrupt] and [SystemExit] do not. *)
Record exn := Exn { cls : string; detail : string; ordinary : bool }.

Definition ValueError (msg : string) : exn := Exn "ValueError" msg true.
Definition AttributeError (attr : string) : exn :=
  Exn "AttributeError" ("'WaterAlarm' object has no attribute '" +:+ attr +:+ "'") true.
Definition NameError (name : string) : exn :=
  Exn "NameError" ("name '" +:+ name +:+ "' is not defined") true.

(** A received SMS, as far as the program reads it: [message.number] and
    [message.text]. *)
Record sms := Sms { number : string; text : string }.

(** [str(n)] for an [int], as the f-strings format it. *)
Definition str (n : Z) : string := NilZero.string_of_int (Z.to_int n).

(** The nearest integer to [n] that has at most 53 significant bits, ties
    going to the even one: the value of [n] as a double, were its exponent
    unbounded. *)
Definition round53 (n : Z) : Z :=
  let a := Z.abs n in
  let e := Z.log2 a - 52 in
  if e <=? 0 then n
  else
    let q := Z.shiftr a e in
    let r := Z.land a (Z.ones e) in
    let h := Z.shiftl 1 (e - 1) in
    let q' := if (h <? r) || ((r =? h) && Z.odd q) then q + 1 else q in
    Z.sgn n * Z.shiftl q' e.

(** The value of [n / 2] for an [int] [n], where it is one: Python's true
    division returns the double nearest to the quotient (ties to even);
    halving does not change the significant bits. *)
Definition float_half (n : Z) : Q := round53 n # 2.

(** [n / 2] has no value when the nearest double would be 2^1024 or more in
    magnitude: the division raises [OverflowError]. *)
Definition half_overflows (n : Z) : bool := 2 ^ 1025 <=? Z.abs (round53 n).

Definition OverflowError : exn :=
  Exn "OverflowError" "integer division result too large for a float" true.

(** [k >= q] and [k < q] for an [int] [k] and a float [q]; Python compares
    the two exactly. *)
Definition ge_quot (k : Z) (q : Q) : bool := Qle_bool q (inject_Z k).
Definition lt_quot (k : Z) (q : Q) : bool := negb (Qle_bool q (inject_Z k)).

(** The names bound at module level in main.py (imports, assignments, the
    class), in order of binding.  A bare name that is neither local nor
    listed here nor a builtin raises [NameError]. *)
Definition module_globals : list string :=
  [ "seeed_relay_v1"; "log"; "gsmmodem"; "dotenv"; "time"; "json"; "os";
    "logging"; "debug"; "WaterAlarm"; "phone_number"; "alert_phone_numbers";
    "wateralarm" ].

(** The module-level constant [debug = True]. *)
Definition debug : bool := true.

(** ** The object *)

(** The constructor arguments kept on [self] (lines 50-61). *)
Record Config := {
  phone_number : string;
  request_message : string;
  water_message : string;
  no_water_message : string;
  relay_board_address : Z;
  red_relay : Z;
  amber_relay : Z;
  green_relay : Z;
  alert_numbers : list string;
  water_time : Z;
  disconnect_time : Z;
  log : bool
}.

(** The attributes the methods assign.  [missing_loops] and
    [awaiting_message] are first bound by [request_status], not by the
    constructor: [None] is the unbound attribute. *)
Record WaterAlarm := {
  conf : Config;
  missing_responses : Z;
  water : bool;
  times_water_detected : Z;
  missing_loops : option Z;
  awaiting_message : option bool
}.

Definition set_missing_responses (v : Z) (s : WaterAlarm) : WaterAlarm :=
  {| conf := conf s; missing_responses := v; water := water s;
     times_water_detected := times_water_detected s;
     missing_loops := missing_loops s; awaiting_message := awaiting_message s |}.

Definition set_water (v : bool) (s : WaterAlarm) : WaterAlarm :=
  {| conf := conf s; missing_responses := missing_responses s; water := v;
     times_water_detected := times_water_detected s;
     missing_loops := missing_loops s; awaiting_message := awaiting_message s |}.

Definition set_times_water_detected (v : Z) (s : WaterAlarm) : WaterAlarm :=
  {| conf := conf s; missing_responses := missing_responses s; water := water s;
     times_water_detected := v;
     missing_loops := missing_loops s; awaiting_message := awaiting_message s |}.

Definition set_missing_loops (v : Z) (s : WaterAlarm) : WaterAlarm :=
  {| conf := conf s; missing_responses := missing_responses s; water := water s;
     times_water_detected := times_water_detected s;
     missing_loops := Some v; awaiting_message := awaiting_message s |}.

Definition set_awaiting_message (v : bool) (s : WaterAlarm) : WaterAlarm :=
  {| conf := conf s; missing_responses := missing_responses s; water := water s;
     times_water_detected := times_water_detected s;
     missing_loops := missing_loops s; awaiting_message := Some v |}.

(** ** The world around the object *)

(** What the program emits: console lines and [modem.sendSms] calls. *)
Inductive event :=
| Print (line : string)
| SendSms (dest : string) (body : string).

(** The answers of the gateways.  Every gateway call is numbered by the
    count of gateway calls made before it ([clock]); the environment says
    for that call whether it raises, and what a drain of the inbox returns.
    [power_on] is the set of relays energised when the board object is
    created. *)
Record env := {
  connect_result : nat -> option exn;
  sendSms_result : nat -> option exn;
  listStoredSms_result : nat -> exn + list sms;
  close_result : nat -> option exn;
  relay_result : nat -> option exn;
  signalStrength_result : nat -> exn + Z;
  power_on : gset Z
}.

(** [relay_board] is the set of energised relay ports, [None] while
    [self.relay_board] is not yet bound (before line 79); [modem_open]
    tells whether the modem connection is held. *)
Record world := {
  self : WaterAlarm;
  relay_board : option (gset Z);
  modem_open : bool;
  out : list event;
  clock : nat
}.

Definition with_self (s : WaterAlarm) (w : world) : world :=
  {| self := s; relay_board := relay_board w; modem_open := modem_open w;
     out := out w; clock := clock w |}.

Definition with_board (b : gset Z) (w : world) : world :=
  {| self := self w; relay_board := Some b; modem_open := modem_open w;
     out := out w; clock := clock w |}.

Definition with_modem (o : bool) (w : world) : world :=
  {| self := self w; relay_board := relay_board w; modem_open := o;
     out := out w; clock := clock w |}.

Definition emit (e : event) (w : world) : world :=
  {| self := self w; relay_board := relay_board w; modem_open := modem_open w;
     out := out w ++ [e]; clock := clock w |}.

Definition advance (w : world) : world :=
  {| self := self w; relay_board := relay_board w; modem_open := modem_open w;
     out := out w; clock := S (clock w) |}.

(** The SMS calls of a trace, in order. *)
Fixpoint sent (t : list event) : list (string * string) :=
  match t with
  | [] => []
  | SendSms d b :: t' => (d, b) :: sent t'
  | Print _ :: t' => sent t'
  end.

(** The console lines of a trace, in order. *)
Fixpoint printed (t : list event) : list string :=
  match t with
  | [] => []
  | Print l :: t' => l :: printed t'
  | SendSms _ _ :: t' => printed t'
  end.

(** ** The monad *)

(** A computation ends with a value, with a raised exception, or is still
    running when the fuel of an unbounded loop is spent. *)
Inductive result (A : Type) :=
| Ok (a : A)
| Raise (e : exn)
| OutOfFuel.

Arguments Ok {A} a.
Arguments Raise {A} e.
Arguments OutOfFuel {A}.

Definition M (A : Type) : Type := world -> result A * world.

Definition ret {A} (a : A) : M A := fun w => (Ok a, w).

Definition bind {A B} (m : M A) (k : A -> M B) : M B :=
  fun w =>
    match m w with
    | (Ok a, w') => k a w'
    | (Raise e, w') => (Raise e, w')
    | (OutOfFuel, w') => (OutOfFuel, w')
    end.

Definition raise {A} (e : exn) : M A := fun w => (Raise e, w).

Declare Scope py_scope.
Delimit Scope py_scope with py.
Notation "x <- m ;; k" := (bind m (fun x => k))
  (at level 100, m at next level, right associativity) : py_scope.
Notation "m ;; k" := (bind m (fun _ => k))
  (at level 100, right associativity) : py_scope.
Local Open Scope py_scope.

(** [try: m  except Exception as e: h e]. *)
Definition try_except {A} (m : M A) (h : exn -> M A) : M A :=
  fun w =>
    match m w with
    | (Raise e, w') => if ordinary e then h e w' else (Raise e, w')
    | r => r
    end.

(** [try: m  finally: f]: [f] runs when [m] ends or raises; an exception of
    [f] replaces the pending one.  A loop that is still running has not
    left the [try]. *)
Definition try_finally (m : M unit) (f : M unit) : M unit :=
  fun w =>
    match m w with
    | (Ok _, w') => f w'
    | (Raise e, w') =>
        match f w' with
        | (Ok _, w'') => (Raise e, w'')
        | r => r
        end
    | (OutOfFuel, w') => (OutOfFuel, w')
    end.

(** [for x in l: f x]. *)
Fixpoint for_each {A} (f : A -> M unit) (l : list A) : M unit :=
  match l with
  | [] => ret tt
  | x :: l' => f x ;; for_each f l'
  end.

(** [for i in range(start, start + n): body i]. *)
Fixpoint for_range (body : Z -> M unit) (start : Z) (n : nat) : M unit :=
  match n with
  | O => ret tt
  | S n' => body start ;; for_range body (start + 1) n'
  end.

Definition get_self : M WaterAlarm := fun w => (Ok (self w), w).

Definition update_self (f : WaterAlarm -> WaterAlarm) : M unit :=
  fun w => (Ok tt, with_self (f (self w)) w).

Definition print (line : string) : M unit := fun w => (Ok tt, emit (Print line) w).

(** [time.sleep]: the passing of time is not observed. *)
Definition sleep (seconds : Z) : M unit := ret tt.

(** Reading a module-level name. *)
Definition load_global (name : string) : M unit :=
  if bool_decide (name ∈ module_globals) then ret tt else raise (NameError name).

(** Evaluating [n / 2]. *)
Definition half (n : Z) : M Q :=
  if half_overflows n then raise OverflowError else ret (float_half n).

(** Reading an attribute of [self] that may not be bound yet. *)
Definition attribute {A} (name : string) (value : WaterAlarm -> option A) : M A :=
  fun w =>
    match value (self w) with
    | Some v => (Ok v, w)
    | None => (Raise (AttributeError name), w)
    end.

Definition out_of_fuel {A} : M A := fun w => (OutOfFuel, w).

(** [while True: body]. *)
Fixpoint while_true (body : M unit) (fuel : nat) : M unit :=
  match fuel with
  | O => out_of_fuel
  | S fuel' => body ;; while_true body fuel'
  end.

(** ** The program *)

Section Program.

Variable E : env.

(** *** The gateways: gsmmodem and seeed_relay_v1

    Neither library is part of the repository.  A call that completes has
    the effect its name says; a call that raises has none. *)

Definition gateway (answer : nat -> option exn) (effect : world -> world) : M unit :=
  fun w =>
    match answer (clock w) with
    | None => (Ok tt, advance (effect w))
    | Some e => (Raise e, advance w)
    end.

(** [gsmmodem.GsmModem("/dev/ttyS0", baudrate)] followed by [connect()]. *)
Definition modem_connect (baudrate : Z) : M unit :=
  gateway (connect_result E) (with_modem true).

Definition modem_sendSms (dest message : string) : M unit :=
  fun w => gateway (sendSms_result E) (fun w' => w') (emit (SendSms dest message) w).

Definition modem_listStoredSms : M (list sms) :=
  fun w =>
    match listStoredSms_result E (clock w) with
    | inr messages => (Ok messages, advance w)
    | inl e => (Raise e, advance w)
    end.

Definition modem_signalStrength : M Z :=
  fun w =>
    match signalStrength_result E (clock w) with
    | inr v => (Ok v, advance w)
    | inl e => (Raise e, advance w)
    end.

Definition modem_close : M unit :=
  gateway (close_result E) (with_modem false).

(** [seeed_relay_v1.Relay(device_address=...)], bound to [self.relay_board]. *)
Definition relay_board_create (address : Z) : M unit :=
  gateway (relay_result E) (with_board (power_on E)).

(** Evaluating [self.relay_board]. *)
Definition self_relay_board : M (gset Z) :=
  fun w =>
    match relay_board w with
    | Some b => (Ok b, w)
    | None => (Raise (AttributeError "relay_board"), w)
    end.

Definition relay_board_on (n : Z) : M unit :=
  b <- self_relay_board ;; gateway (relay_result E) (with_board (b ∪ {[n]})).

Definition relay_board_off (n : Z) : M unit :=
  b <- self_relay_board ;; gateway (relay_result E) (with_board (b ∖ {[n]})).

Definition relay_board_all_off : M unit :=
  b <- self_relay_board ;; gateway (relay_result E) (with_board ∅).

Definition relay_board_get_port_status (n : Z) : M bool :=
  b <- self_relay_board ;;
  gateway (relay_result E) (fun w => w) ;;
  ret (bool_decide (n ∈ b)).

(** *** The methods of [WaterAlarm] *)

(** Lines 149-160.  The signal strength is read from the bare name
    [modem], not from [self.modem]. *)
Definition exception_handler (e : exn) (task : string) : M unit :=
  print ("Encountered a " +:+ cls e +:+ " while " +:+ task +:+ ".") ;;
  s <- get_self ;;
  lit <- relay_board_get_port_status (amber_relay (conf s)) ;;
  (if negb lit
   then relay_board_on (amber_relay (conf s)) ;;
        sleep 1 ;;
        relay_board_off (amber_relay (conf s))
   else ret tt) ;;
  if log (conf s)
  then try_except
         (load_global "modem" ;;
          v <- modem_signalStrength ;;
          print ("Signal strength: " +:+ str v +:+ " / 100"))
         (fun _ => print "Unable to get signal strength.")
  else ret tt.

(** Lines 193-197. *)
Definition send_message (dest message : string) : M unit :=
  try_except
    (modem_sendSms dest message)
    (fun e => exception_handler e
                ("sending message '" +:+ message +:+ "' to " +:+ dest)).

(** Lines 162-177. *)
Definition light (colour : string) : M unit :=
  s <- get_self ;;
  if bool_decide (colour = "red")
  then relay_board_off (amber_relay (conf s)) ;;
       relay_board_off (green_relay (conf s)) ;;
       relay_board_on (red_relay (conf s))
  else if bool_decide (colour = "amber")
  then relay_board_off (green_relay (conf s)) ;;
       relay_board_on (amber_relay (conf s))
  else if bool_decide (colour = "green")
  then relay_board_off (amber_relay (conf s)) ;;
       relay_board_off (red_relay (conf s)) ;;
       relay_board_on (green_relay (conf s))
  else print ("Unknown light " +:+ colour +:+ ".").

(** The four texts of lines 183-189. *)
Definition water_text (s : WaterAlarm) : string :=
  "Water has been detected at XFEL for the past "
    +:+ str (times_water_detected s * 2) +:+ "m!".
Definition disconnect_text (s : WaterAlarm) : string :=
  "The connection to the flood monitoring system at XFEL has been lost for "
    +:+ str (missing_responses s * 2) +:+ "m.".
Definition restored_text : string :=
  "The connection to the flood monitoring system has been restored.".
Definition removed_text : string := "The water is no longer detected.".

(** Lines 179-191. *)
Definition alert_humans (event : string) : M unit :=
  s <- get_self ;;
  for_each
    (fun dest =>
       s <- get_self ;;
       if bool_decide (event = "water")
       then send_message dest (water_text s)
       else if bool_decide (event = "disconnect")
       then send_message dest (disconnect_text s)
       else if bool_decide (event = "restored")
       then send_message dest restored_text
       else if bool_decide (event = "removed")
       then send_message dest removed_text
       else raise (ValueError ("Unknown event " +:+ event)))
    (alert_numbers (conf s)).

(** Lines 132-147.  In the chained comparison of line 141 the quotient is
    evaluated only when [0 < self.times_water_detected] holds. *)
Definition update_status : M unit :=
  s <- get_self ;;
  if (times_water_detected s =? 0)%Z
  then light "green" ;;
       (if water s then alert_humans "removed" else ret tt) ;;
       update_self (set_water false) ;;
       (if log (conf s)
        then print ("Received '" +:+ no_water_message (conf s)
                      +:+ "', turning green light on.")
        else ret tt)
  else
    below <- (if (0 <? times_water_detected s)%Z
              then q <- half (water_time (conf s)) ;;
                   ret (lt_quot (times_water_detected s) q)
              else ret false) ;;
    if below : bool
    then print ("Water has been detected for " +:+ str (times_water_detected s * 2)
                  +:+ "m. Will alert others at " +:+ str (water_time (conf s)) +:+ "m.")
    else
      q <- half (water_time (conf s)) ;;
      if ge_quot (times_water_detected s) q
      then light "red" ;;
           alert_humans "water" ;;
           update_self (set_water true) ;;
           print ("Water has been detected for the past "
                    +:+ str (times_water_detected s * 2) +:+ "m, turning red light on.")
      else ret tt.

(** Lines 113-130. *)
Definition parse_message (message : sms) : M unit :=
  s <- get_self ;;
  if bool_decide (number message = phone_number (conf s))
  then q <- half (disconnect_time (conf s)) ;;
       (if ge_quot (missing_responses s) q
        then alert_humans "restored"
        else ret tt) ;;
       update_self (set_missing_loops 0) ;;
       update_self (set_missing_responses 0) ;;
       update_self (set_awaiting_message false) ;;
       if bool_decide (text message = water_message (conf s))
       then update_self (fun s' => set_times_water_detected (times_water_detected s' + 1) s') ;;
            update_status
       else if bool_decide (text message = no_water_message (conf s))
       then update_self (set_times_water_detected 0) ;;
            update_status
       else print ("Unknown message '" +:+ text message +:+ "'")
  else print ("Unknown number " +:+ number message).

(** Lines 93-99. *)
Definition request_status : M unit :=
  s <- get_self ;;
  send_message (phone_number (conf s)) (request_message (conf s)) ;;
  update_self (set_missing_loops 0) ;;
  update_self (set_awaiting_message true) ;;
  if log (conf s) then print "Sent request." else ret tt.

(** Lines 101-111.  [len(messages) == 0 and self.awaiting_message] reads the
    attribute only when the drain was empty. *)
Definition check_for_answer : M unit :=
  messages <- try_except
                modem_listStoredSms
                (fun e => exception_handler e "checking for new messages" ;;
                          ret []) ;;
  (if (length messages =? 0)%nat
   then awaiting <- attribute "awaiting_message" awaiting_message ;;
        if awaiting : bool
        then n <- attribute "missing_loops" missing_loops ;;
             update_self (set_missing_loops (n + 1))
        else ret tt
   else ret tt) ;;
  for_each parse_message messages.

(** The body of [for i in range(12)], lines 204-210. *)
Definition tick (i : Z) : M unit :=
  (if (i =? 0)%Z then request_status else ret tt) ;;
  (if debug then sleep 2 else sleep 10) ;;
  check_for_answer.

(** Lines 211-217, after the [for] loop. *)
Definition cycle_end : M unit :=
  n <- attribute "missing_loops" missing_loops ;;
  (if (n =? 12)%Z
   then update_self (fun s => set_missing_responses (missing_responses s + 1) s) ;;
        s <- get_self ;;
        print ("No answer received in the last "
                 +:+ str (missing_responses s * 2) +:+ "m!")
   else ret tt) ;;
  s <- get_self ;;
  q <- half (disconnect_time (conf s)) ;;
  if ge_quot (missing_responses s) q
  then print ("No answer received in the last " +:+ str (missing_responses s * 2)
                +:+ " minutes, turning amber light on.") ;;
       light "amber" ;;
       alert_humans "disconnect"
  else ret tt.

(** One pass of the body of [while True]. *)
Definition cycle : M unit := for_range tick 0 12 ;; cycle_end.

(** The [finally] block, lines 219-220. *)
Definition cleanup : M unit := relay_board_all_off ;; modem_close.

(** Lines 199-220. *)
Definition mainloop (fuel : nat) : M unit :=
  try_finally (while_true cycle fuel) cleanup.

(** The retry loop of lines 70-76. *)
Fixpoint connect_loop (baudrate : Z) (fuel : nat) : M unit :=
  match fuel with
  | O => out_of_fuel
  | S fuel' =>
      connected <- try_except
                     (modem_connect baudrate ;; ret true)
                     (fun e => exception_handler e "connecting the modem. Trying again" ;;
                               ret false) ;;
      if connected : bool then ret tt else connect_loop baudrate fuel'
  end.

(** The object before the constructor body has assigned anything but the
    arguments; the three counters of lines 80-82 are not read before they
    are assigned. *)
Definition newborn (c : Config) : world :=
  {| self := {| conf := c; missing_responses := 0; water := false;
                times_water_detected := 0; missing_loops := None;
                awaiting_message := None |};
     relay_board := None; modem_open := false; out := []; clock := 0 |}.

(** Lines 63-91 on the object holding the arguments. *)
Definition init_body (baudrate : Z) (fuel : nat) : M unit :=
  s <- get_self ;;
  (if negb (disconnect_time (conf s) mod 2 =? 0)%Z
   then raise (ValueError "'water_time' must be a multiple of 2!")
   else ret tt) ;;
  (if negb (disconnect_time (conf s) mod 2 =? 0)%Z
   then raise (ValueError "'disconnect_time' must be a multiple of 2!")
   else ret tt) ;;
  (if log (conf s) then print "Connecting modem" else ret tt) ;;
  connect_loop baudrate fuel ;;
  (if log (conf s) then print "Connecting relay board" else ret tt) ;;
  relay_board_create (relay_board_address (conf s)) ;;
  update_self (set_missing_responses 0) ;;
  update_self (set_water false) ;;
  update_self (set_times_water_detected 0) ;;
  relay_board_on (red_relay (conf s)) ;;
  sleep 1 ;;
  relay_board_off (red_relay (conf s)) ;;
  relay_board_on (amber_relay (conf s)) ;;
  sleep 1 ;;
  relay_board_off (amber_relay (conf s)) ;;
  relay_board_on (green_relay (conf s)) ;;
  sleep 1 ;;
  relay_board_off (green_relay (conf s)).

(** [WaterAlarm(...)], lines 15-91. *)
Definition __init__ (c : Config) (baudrate : Z) (fuel : nat) : result unit * world :=
  init_body baudrate fuel (newborn c).

(** The script of lines 224-243: construct, then run the main loop. *)
Definition main (c : Config) (baudrate : Z) (fuel : nat) : result unit * world :=
  match __init__ c baudrate fuel with
  | (Ok _, w) => mainloop fuel w
  | r => r
  end.

End Program.

(** The arguments of lines 227-241; the two phone numbers come from the
    process environment. *)
Definition script_config (phone : string) (alert_phone_numbers : list string) : Config :=
  {| phone_number := phone; request_message := "Water?";
     water_message := "1"; no_water_message := "0";
     relay_board_address := 32;
     red_relay := 1; amber_relay := 2; green_relay := 3;
     alert_numbers := alert_phone_numbers;
     water_time := 4; disconnect_time := 10; log := true |}.

(** An environment in which every gateway call completes and the inbox is
    always empty. *)
Definition silent : env :=
  {| connect_result := fun _ => None;
     sendSms_result := fun _ => None;
     listStoredSms_result := fun _ => inr [];
     close_result := fun _ => None;
     relay_result := fun _ => None;
     signalStrength_result := fun _ => inr 50;
     power_on := ∅ |}.

(** * Vocabulary of the statements *)

(** ** Environments *)

(** Every relay-board call completes. *)
Definition relays_respond (E : env) : Prop := forall k, relay_result E k = None.

(** Whatever [sendSms] raises derives from [Exception]. *)
Definition send_faults_caught (E : env) : Prop :=
  forall k e, sendSms_result E k = Some e -> ordinary e = true.

(** The modem cannot be reached. *)
Definition modem_unreachable : env :=
  {| connect_result := fun _ => Some (Exn "TimeoutException" "" true);
     sendSms_result := fun _ => None;
     listStoredSms_result := fun _ => inr [];
     close_result := fun _ => None;
     relay_result := fun _ => None;
     signalStrength_result := fun _ => inr 50;
     power_on := ∅ |}.

(** Every drain of the inbox returns one message from a number that is not
    the target. *)
Definition stranger_writes : env :=
  {| connect_result := fun _ => None;
     sendSms_result := fun _ => None;
     listStoredSms_result := fun _ => inr [Sms "+4930" "1"];
     close_result := fun _ => None;
     relay_result := fun _ => None;
     signalStrength_result := fun _ => inr 50;
     power_on := ∅ |}.

(** The relay board stops answering once the object is constructed (the
    constructor makes the gateway calls 0 to 7): every later relay call
    raises an [OSError] that tells its number. *)
Definition relay_board_dies : env :=
  {| connect_result := fun _ => None;
     sendSms_result := fun _ => None;
     listStoredSms_result := fun _ => inr [];
     close_result := fun _ => None;
     relay_result := fun k =>
       if (8 <=? k)%nat
       then Some (Exn "OSError" ("relay call " +:+ str (Z.of_nat k)) true)
       else None;
     signalStrength_result := fun _ => inr 50;
     power_on := ∅ |}.

(** The operator interrupts the process during the first [sendSms] of the
    main loop ([KeyboardInterrupt] does not derive from [Exception]). *)
Definition interrupted : env :=
  {| connect_result := fun _ => None;
     sendSms_result := fun _ => Some (Exn "KeyboardInterrupt" "" false);
     listStoredSms_result := fun _ => inr [];
     close_result := fun _ => None;
     relay_result := fun _ => None;
     signalStrength_result := fun _ => inr 50;
     power_on := ∅ |}.

(** A configuration with other thresholds. *)
Definition with_thresholds (disconnect water : Z) (c : Config) : Config :=
  {| phone_number := phone_number c; request_message := request_message c;
     water_message := water_message c; no_water_message := no_water_message c;
     relay_board_address := relay_board_address c;
     red_relay := red_relay c; amber_relay := amber_relay c;
     green_relay := green_relay c; alert_numbers := alert_numbers c;
     water_time := water; disconnect_time := disconnect; log := log c |}.

(** ** Thresholds *)

(** [n / 2] raises no [OverflowError]. *)
Definition finite_half (n : Z) : Prop := half_overflows n = false.

(** [n] is below 2^53 in magnitude: it is a double itself, and [n / 2] is
    the exact quotient. *)
Definition exact_half (n : Z) : Prop := Z.abs n < 2 ^ 53.

(** ** What a method leaves alone *)

(** [frame w w' new]: from [w] to [w'] the object, the relays and the modem
    connection are as before, and [new] lists the SMS calls made. *)
Record frame (w w' : world) (new : list (string * string)) : Prop := {
  frame_self : self w' = self w;
  frame_board : relay_board w' = relay_board w;
  frame_modem : modem_open w' = modem_open w;
  frame_sent : sent (out w') = sent (out w) ++ new
}.

(** [moves R m]: however [m] ends, the object before and the object after
    are related by [R]. *)
Definition moves (R : relation WaterAlarm) {A} (m : M A) : Prop :=
  forall w, R (self w) (self (snd (m w))).

(** [missing_loops] is what it was; and: it is what it was or has been
    reset to 0. *)
Definition same_loops : relation WaterAlarm :=
  fun s s' => missing_loops s' = missing_loops s.

Definition loops_reset : relation WaterAlarm :=
  fun s s' => missing_loops s' = missing_loops s \/ missing_loops s' = Some 0.

(** ** Alerts *)

(** The text sent for each of the four events. *)
Definition alert_text (event : string) (s : WaterAlarm) : string :=
  if bool_decide (event = "water") then water_text s
  else if bool_decide (event = "disconnect") then disconnect_text s
  else if bool_decide (event = "restored") then restored_text
  else removed_text.

Definition known_event (event : string) : Prop :=
  event = "water" \/ event = "disconnect" \/ event = "restored" \/ event = "removed".

(** One SMS with the same text to every number of a list. *)
Definition round (body : string) (dests : list string) : list (string * string) :=
  map (fun d => (d, body)) dests.

(** The "water" and the "disconnect" alerts among the SMS calls of a trace,
    recognised by the fixed head of their texts. *)
Definition is_water_alert (p : string * string) : bool :=
  String.prefix "Water has been detected at XFEL" (snd p).

Definition is_disconnect_alert (p : string * string) : bool :=
  String.prefix
    "The connection to the flood monitoring system at XFEL has been lost"
    (snd p).

Definition water_alerts (t : list event) : list (string * string) :=
  List.filter is_water_alert (sent t).

Definition disconnect_alerts (t : list event) : list (string * string) :=
  List.filter is_disconnect_alert (sent t).

(** The first line the handler prints. *)
Definition encountered (e : exn) (task : string) : string :=
  "Encountered a " +:+ cls e +:+ " while " +:+ task +:+ ".".

(** ** Lights *)

(** The relays after [light "red"], [light "amber"] and [light "green"] on
    the board [b]. *)
Definition red_lit (s : WaterAlarm) (b : gset Z) : gset Z :=
  ((b ∖ {[amber_relay (conf s)]}) ∖ {[green_relay (conf s)]}) ∪ {[red_relay (conf s)]}.
Definition amber_lit (s : WaterAlarm) (b : gset Z) : gset Z :=
  (b ∖ {[green_relay (conf s)]}) ∪ {[amber_relay (conf s)]}.
Definition green_lit (s : WaterAlarm) (b : gset Z) : gset Z :=
  ((b ∖ {[amber_relay (conf s)]}) ∖ {[red_relay (conf s)]}) ∪ {[green_relay (conf s)]}.

Definition lit (colour : string) (s : WaterAlarm) (b : gset Z) : gset Z :=
  if bool_decide (colour = "red") then red_lit s b
  else if bool_decide (colour = "amber") then amber_lit s b
  else if bool_decide (colour = "green") then green_lit s b
  else b.

(** ** Replies *)

(** A reply carrying the water text, sent from the target number. *)
Definition water_reply (c : Config) (m : sms) : Prop :=
  number m = phone_number c /\ text m = water_message c.

(** The counters after a reply from the target has been attributed. *)
Definition attributed (s : WaterAlarm) : WaterAlarm :=
  set_awaiting_message false (set_missing_responses 0 (set_missing_loops 0 s)).

(** The "restored" round that a reply from the target triggers. *)
Definition restored_round (s : WaterAlarm) : list (string * string) :=
  if ge_quot (missing_responses s) (float_half (disconnect_time (conf s)))
  then map (fun d => (d, restored_text)) (alert_numbers (conf s))
  else [].

(** ** The main loop *)

(** The first [n] passes through the body of a loop. *)
Fixpoint passes (body : M unit) (n : nat) : M unit :=
  match n with
  | O => ret tt
  | S n' => body ;; passes body n'
  end.



(** ** Further vocabulary *)

(** Every [sendSms] fails with an exception of the modem library. *)
Definition sms_fails : env :=
  {| connect_result := fun _ => None;
     sendSms_result := fun _ => Some (Exn "CmsError" "CMS 500" true);
     listStoredSms_result := fun _ => inr [];
     close_result := fun _ => None;
     relay_result := fun _ => None;
     signalStrength_result := fun _ => inr 50;
     power_on := ∅ |}.

(** Every drain of the inbox fails with an exception of the modem library. *)
Definition drain_fails : env :=
  {| connect_result := fun _ => None;
     sendSms_result := fun _ => None;
     listStoredSms_result := fun _ => inl (Exn "TimeoutException" "" true);
     close_result := fun _ => None;
     relay_result := fun _ => None;
     signalStrength_result := fun _ => inr 50;
     power_on := ∅ |}.

(** Every drain of the inbox returns no message or fails with an exception
    that derives from [Exception]. *)
Definition inbox_quiet (E : env) : Prop :=
  forall k,
    match listStoredSms_result E k with
    | inr messages => messages = []
    | inl e => ordinary e = true
    end.

(** The object but for [missing_responses]. *)
Definition same_but_responses (s s' : WaterAlarm) : Prop :=
  conf s' = conf s /\ water s' = water s
  /\ times_water_detected s' = times_water_detected s
  /\ missing_loops s' = missing_loops s
  /\ awaiting_message s' = awaiting_message s.

(** The three connection counters are what they were. *)
Definition same_counters : relation WaterAlarm :=
  fun s s' => missing_responses s' = missing_responses s
              /\ missing_loops s' = missing_loops s
              /\ awaiting_message s' = awaiting_message s.

(** No reply is awaited and no tick has been counted. *)
Definition accounting_stopped (s : WaterAlarm) : Prop :=
  awaiting_message s = Some false /\ missing_loops s = Some 0.

Definition stays_stopped : relation WaterAlarm :=
  fun s s' => accounting_stopped s -> accounting_stopped s'.

(** Neither counter of replies is negative. *)
Definition counters_nonneg (s : WaterAlarm) : Prop :=
  0 <= times_water_detected s /\ 0 <= missing_responses s.

Definition stays_nonneg : relation WaterAlarm :=
  fun s s' => counters_nonneg s -> counters_nonneg s'.

(** ** Tactics *)

(** Decide the comparisons of two string literals in the goal. *)
Ltac literals :=
  repeat match goal with
  | |- context [bool_decide (?a = ?b)] =>
      let v := eval vm_compute in (bool_decide (a = b)) in
      match v with
      | true => change (bool_decide (a = b)) with true
      | false => change (bool_decide (a = b)) with false
      end
  end; cbv iota.

(** * Properties *)

(** ** Running the monad *)

Lemma bind_ok {A B} (m : M A) (k : A -> M B) w a w1 :
  m w = (Ok a, w1) -> bind m k w = k a w1.
Proof. intros H. unfold bind. now rewrite H. Qed.

Lemma bind_raise {A B} (m : M A) (k : A -> M B) w e w1 :
  m w = (Raise e, w1) -> bind m k w = (Raise e, w1).
Proof. intros H. unfold bind. now rewrite H. Qed.

Lemma bind_out_of_fuel {A B} (m : M A) (k : A -> M B) w w1 :
  m w = (OutOfFuel, w1) -> bind m k w = (OutOfFuel, w1).
Proof. intros H. unfold bind. now rewrite H. Qed.

Lemma bind_cases {A B} (m : M A) (k : A -> M B) w :
  bind m k w
  = match m w with
    | (Ok a, w') => k a w'
    | (Raise e, w') => (Raise e, w')
    | (OutOfFuel, w') => (OutOfFuel, w')
    end.
Proof. reflexivity. Qed.

Lemma bind_get_self {B} (k : WaterAlarm -> M B) w : bind get_self k w = k (self w) w.
Proof. reflexivity. Qed.

Lemma bind_update_self {B} f (k : unit -> M B) w :
  bind (update_self f) k w = k tt (with_self (f (self w)) w).
Proof. reflexivity. Qed.

Lemma bind_print {B} line (k : unit -> M B) w :
  bind (print line) k w = k tt (emit (Print line) w).
Proof. reflexivity. Qed.

Lemma bind_ret {A B} (a : A) (k : A -> M B) w : bind (ret a) k w = k a w.
Proof. reflexivity. Qed.

Lemma bind_attribute {A B} name (value : WaterAlarm -> option A) (k : A -> M B) w v :
  value (self w) = Some v -> bind (attribute name value) k w = k v w.
Proof. intros H. unfold bind, attribute. now rewrite H. Qed.

Lemma sent_app t1 t2 : sent (t1 ++ t2) = sent t1 ++ sent t2.
Proof.
  induction t1 as [|[l|d b] t1 IH]; simpl; [reflexivity | exact IH |].
  now rewrite IH.
Qed.

Lemma printed_app t1 t2 : printed (t1 ++ t2) = printed t1 ++ printed t2.
Proof.
  induction t1 as [|[l|d b] t1 IH]; simpl; [reflexivity | | exact IH].
  now rewrite IH.
Qed.

(** *** Halving a threshold *)

Lemma round53_exact n : exact_half n -> round53 n = n.
Proof.
  unfold exact_half, round53. intros Hn.
  destruct (Z.leb_spec (Z.log2 (Z.abs n) - 52) 0) as [_|He]; [reflexivity|].
  exfalso. destruct (Z.eq_dec (Z.abs n) 0) as [H0|H0].
  - rewrite H0 in He. cbn in He. lia.
  - assert (Hlog : Z.log2 (Z.abs n) < 53) by (apply Z.log2_lt_pow2; lia).
    lia.
Qed.

Lemma exact_half_finite n : exact_half n -> finite_half n.
Proof.
  intros Hn. unfold finite_half, half_overflows. rewrite (round53_exact n Hn).
  apply Z.leb_gt. unfold exact_half in Hn.
  assert (2 ^ 53 < 2 ^ 1025) by (apply Z.pow_lt_mono_r; lia). lia.
Qed.

Lemma float_half_exact n : exact_half n -> float_half n = n # 2.
Proof. intros Hn. unfold float_half. now rewrite (round53_exact n Hn). Qed.

Lemma bind_half {B} n (k : Q -> M B) w :
  finite_half n -> bind (half n) k w = k (float_half n) w.
Proof. intros Hn. unfold bind, half. now rewrite Hn. Qed.

Lemma half_overflow_raises n w :
  half_overflows n = true -> half n w = (Raise OverflowError, w).
Proof. intros Hn. unfold half. now rewrite Hn. Qed.

Lemma ge_quot_exact k n : exact_half n -> ge_quot k (float_half n) = (n <=? 2 * k).
Proof.
  intros Hn. rewrite (float_half_exact n Hn).
  unfold ge_quot, Qle_bool. cbn [Qnum Qden inject_Z].
  f_equal; lia.
Qed.

Lemma lt_quot_ge_quot k q : lt_quot k q = negb (ge_quot k q).
Proof. reflexivity. Qed.

(** The bare name [modem] is bound nowhere in the module. *)
Lemma modem_not_global : bool_decide ("modem" ∈ module_globals) = false.
Proof. reflexivity. Qed.

Lemma silent_relays_respond : relays_respond silent.
Proof. intros k. reflexivity. Qed.

Lemma silent_send_faults_caught : send_faults_caught silent.
Proof. intros k e H. discriminate H. Qed.

Lemma frame_refl w : frame w w [].
Proof. split; try reflexivity. now rewrite app_nil_r. Qed.

Lemma frame_trans w1 w2 w3 l1 l2 :
  frame w1 w2 l1 -> frame w2 w3 l2 -> frame w1 w3 (l1 ++ l2).
Proof.
  intros [a1 b1 c1 d1] [a2 b2 c2 d2]. split; try congruence.
  now rewrite d2, d1, app_assoc.
Qed.

(** Switching a relay on and off again restores a board on which it was
    off. *)
Lemma blink_restores (b : gset Z) (a : Z) : a ∉ b -> (b ∪ {[a]}) ∖ {[a]} = b.
Proof.
  intros Ha. apply set_eq. intros x.
  rewrite elem_of_difference, elem_of_union, elem_of_singleton. split.
  - intros [[H|H] Hx]; [exact H | contradiction].
  - intros H. split; [now left | intros ->; contradiction].
Qed.

Section Gateways.

Variable E : env.

Lemma gateway_ok answer effect w :
  answer (clock w) = None -> gateway answer effect w = (Ok tt, advance (effect w)).
Proof. intros H. unfold gateway. now rewrite H. Qed.

Lemma relay_board_on_ok n w b :
  relays_respond E -> relay_board w = Some b ->
  relay_board_on E n w = (Ok tt, advance (with_board (b ∪ {[n]}) w)).
Proof.
  intros HE Hb. unfold relay_board_on, bind, self_relay_board. rewrite Hb.
  apply gateway_ok, HE.
Qed.

Lemma relay_board_off_ok n w b :
  relays_respond E -> relay_board w = Some b ->
  relay_board_off E n w = (Ok tt, advance (with_board (b ∖ {[n]}) w)).
Proof.
  intros HE Hb. unfold relay_board_off, bind, self_relay_board. rewrite Hb.
  apply gateway_ok, HE.
Qed.

Lemma relay_board_get_port_status_ok n w b :
  relays_respond E -> relay_board w = Some b ->
  relay_board_get_port_status E n w = (Ok (bool_decide (n ∈ b)), advance w).
Proof.
  intros HE Hb. unfold relay_board_get_port_status, bind, self_relay_board.
  rewrite Hb, gateway_ok by apply HE. reflexivity.
Qed.

(** The read of [modem.signalStrength] raises [NameError] before the modem
    is asked anything. *)
Lemma signal_strength_log_fails w :
  try_except
    (load_global "modem" ;;
     v <- modem_signalStrength E ;;
     print ("Signal strength: " +:+ str v +:+ " / 100"))
    (fun _ => print "Unable to get signal strength.") w
  = (Ok tt, emit (Print "Unable to get signal strength.") w).
Proof. reflexivity. Qed.

(** With a bound relay board that answers, the handler blinks amber (or
    leaves it lit) and returns; nothing but the console has changed. *)
Lemma exception_handler_frame e task w b :
  relays_respond E -> relay_board w = Some b ->
  exists w', exception_handler E e task w = (Ok tt, w') /\ frame w w' [].
Proof.
  intros HE Hb. unfold exception_handler.
  set (line := "Encountered a " +:+ cls e +:+ " while " +:+ task +:+ ".").
  set (w1 := emit (Print line) w).
  assert (Hb1 : relay_board w1 = Some b) by exact Hb.
  rewrite (bind_ok _ _ w tt w1) by reflexivity.
  rewrite (bind_ok _ _ w1 (self w1) w1) by reflexivity.
  rewrite (bind_ok _ _ _ _ _ (relay_board_get_port_status_ok _ _ _ HE Hb1)).
  set (a := amber_relay (conf (self w1))).
  destruct (bool_decide (a ∈ b)) eqn:Hlit; cbn [negb].
  - rewrite (bind_ok _ _ _ tt (advance w1)) by reflexivity.
    destruct (log (conf (self w1))).
    + rewrite signal_strength_log_fails. eexists; split; [reflexivity|].
      split; cbn; try reflexivity. now rewrite sent_app, sent_app, !app_nil_r.
    + eexists; split; [reflexivity|].
      split; cbn; try reflexivity. now rewrite sent_app, !app_nil_r.
  - apply bool_decide_eq_false_1 in Hlit.
    assert (Hon : (relay_board_on E a ;; sleep 1 ;; relay_board_off E a) (advance w1)
                  = (Ok tt, advance (with_board ((b ∪ {[a]}) ∖ {[a]})
                                       (advance (with_board (b ∪ {[a]}) (advance w1)))))).
    { rewrite (bind_ok _ _ _ _ _ (relay_board_on_ok a (advance w1) b HE Hb1)).
      rewrite (bind_ok _ _ _ tt _ eq_refl).
      now apply relay_board_off_ok. }
    rewrite (bind_ok _ _ _ _ _ Hon).
    assert (Hsame : (b ∪ {[a]}) ∖ {[a]} = b) by now apply blink_restores.
    destruct (log (conf (self w1))).
    + rewrite signal_strength_log_fails. eexists; split; [reflexivity|].
      split; cbn; rewrite ?Hsame; try (symmetry; assumption); try reflexivity.
      now rewrite sent_app, sent_app, !app_nil_r.
    + eexists; split; [reflexivity|].
      split; cbn; rewrite ?Hsame; try (symmetry; assumption); try reflexivity.
      now rewrite sent_app, !app_nil_r.
Qed.

End Gateways.

(** ** What the methods do when the hardware answers *)

Section Calm.

Variable E : env.
Hypothesis relays : relays_respond E.
Hypothesis sends : send_faults_caught E.

Lemma send_message_frame dest message w b :
  relay_board w = Some b ->
  exists w', send_message E dest message w = (Ok tt, w') /\ frame w w' [(dest, message)].
Proof.
  intros Hb. unfold send_message, try_except, modem_sendSms, gateway. cbn [clock emit].
  destruct (sendSms_result E (clock w)) as [e|] eqn:Hs.
  - rewrite (sends _ _ Hs).
    destruct (exception_handler_frame E e
                ("sending message '" +:+ message +:+ "' to " +:+ dest)
                (advance (emit (SendSms dest message) w)) b relays Hb)
      as (w' & Hrun & [Hself Hboard Hmodem Hsent]).
    exists w'. split; [exact Hrun|].
    split; try assumption.
    rewrite Hsent. cbn. now rewrite sent_app, app_nil_r.
  - eexists; split; [reflexivity|]. split; try reflexivity.
    cbn. now rewrite sent_app.
Qed.

Lemma for_each_frame (f : string -> M unit) (body : string -> string) s0 l :
  (forall d w b, relay_board w = Some b -> self w = s0 ->
     exists w', f d w = (Ok tt, w') /\ frame w w' [(d, body d)]) ->
  forall w b, relay_board w = Some b -> self w = s0 ->
  exists w', for_each f l w = (Ok tt, w') /\ frame w w' (map (fun d => (d, body d)) l).
Proof.
  intros Hf. induction l as [|d l IH]; intros w b Hb Hs; cbn [for_each map].
  - exists w. split; [reflexivity | apply frame_refl].
  - destruct (Hf d w b Hb Hs) as (w1 & Hrun & Hfr).
    assert (Hb1 : relay_board w1 = Some b) by (rewrite (frame_board _ _ _ Hfr); exact Hb).
    assert (Hs1 : self w1 = s0) by (rewrite (frame_self _ _ _ Hfr); exact Hs).
    destruct (IH w1 b Hb1 Hs1) as (w2 & Hrun2 & Hfr2).
    exists w2. split.
    + now rewrite (bind_ok _ _ _ _ _ Hrun).
    + exact (frame_trans _ _ _ _ _ Hfr Hfr2).
Qed.

Lemma alert_humans_frame event w b :
  known_event event -> relay_board w = Some b ->
  exists w', alert_humans E event w = (Ok tt, w')
    /\ frame w w' (map (fun d => (d, alert_text event (self w))) (alert_numbers (conf (self w)))).
Proof.
  intros Hev Hb. unfold alert_humans. rewrite bind_get_self.
  apply (for_each_frame _ (fun _ => alert_text event (self w)) (self w)) with (b := b);
    [|exact Hb|reflexivity].
  intros d w1 b1 Hb1 Hs1. rewrite bind_get_self, Hs1.
  destruct Hev as [-> | [-> | [-> | ->]]]; unfold alert_text; literals;
    apply send_message_frame with (b := b1); exact Hb1.
Qed.

(** *** The lights *)

Lemma bind_relay_board_off {B} n (k : unit -> M B) w b :
  relay_board w = Some b ->
  bind (relay_board_off E n) k w = k tt (advance (with_board (b ∖ {[n]}) w)).
Proof. intros Hb. apply bind_ok. now apply relay_board_off_ok. Qed.

Lemma bind_relay_board_on {B} n (k : unit -> M B) w b :
  relay_board w = Some b ->
  bind (relay_board_on E n) k w = k tt (advance (with_board (b ∪ {[n]}) w)).
Proof. intros Hb. apply bind_ok. now apply relay_board_on_ok. Qed.

Lemma light_ok colour w b :
  colour = "red" \/ colour = "amber" \/ colour = "green" ->
  relay_board w = Some b ->
  exists w', light E colour w = (Ok tt, w')
    /\ self w' = self w /\ modem_open w' = modem_open w /\ out w' = out w
    /\ relay_board w' = Some (lit colour (self w) b).
Proof.
  intros Hc Hb. unfold light. rewrite bind_get_self.
  destruct Hc as [-> | [-> | ->]]; unfold lit; literals.
  - erewrite !bind_relay_board_off by (exact Hb || reflexivity).
    erewrite relay_board_on_ok by (exact relays || reflexivity).
    eexists; split; [reflexivity|]. now repeat split.
  - erewrite !bind_relay_board_off by (exact Hb || reflexivity).
    erewrite relay_board_on_ok by (exact relays || reflexivity).
    eexists; split; [reflexivity|]. now repeat split.
  - erewrite !bind_relay_board_off by (exact Hb || reflexivity).
    erewrite relay_board_on_ok by (exact relays || reflexivity).
    eexists; split; [reflexivity|]. now repeat split.
Qed.

(** *** Replies *)

Lemma update_status_dry w b :
  relay_board w = Some b -> times_water_detected (self w) = 0 ->
  exists w', update_status E w = (Ok tt, w')
    /\ self w' = set_water false (self w)
    /\ modem_open w' = modem_open w
    /\ relay_board w' = Some (green_lit (self w) b)
    /\ sent (out w') = sent (out w)
         ++ (if water (self w)
             then map (fun d => (d, removed_text)) (alert_numbers (conf (self w)))
             else []).
Proof.
  intros Hb Ht. unfold update_status. rewrite bind_get_self, Ht. cbn [Z.eqb].
  destruct (light_ok "green" w b) as (w1 & Hrun & Hs1 & Hm1 & Ho1 & Hb1); [tauto | exact Hb |].
  rewrite (bind_ok _ _ _ _ _ Hrun).
  destruct (water (self w)) eqn:Hw.
  - destruct (alert_humans_frame "removed" w1 _ ltac:(red; tauto) Hb1)
      as (w2 & Hrun2 & [Hs2 Hb2 Hm2 Ho2]).
    rewrite (bind_ok _ _ _ _ _ Hrun2), bind_update_self.
    exists (if log (conf (self w))
            then emit (Print ("Received '" +:+ no_water_message (conf (self w))
                                +:+ "', turning green light on."))
                   (with_self (set_water false (self w2)) w2)
            else with_self (set_water false (self w2)) w2).
    destruct (log (conf (self w))); cbn;
      (split; [reflexivity|]); rewrite ?sent_app, ?app_nil_r, Hs2, Hs1, Hb2, Hb1, Hm2, Hm1, Ho2, Ho1;
      repeat split; rewrite ?Hs1; reflexivity.
  - rewrite bind_ret, bind_update_self.
    exists (if log (conf (self w))
            then emit (Print ("Received '" +:+ no_water_message (conf (self w))
                                +:+ "', turning green light on."))
                   (with_self (set_water false (self w1)) w1)
            else with_self (set_water false (self w1)) w1).
    destruct (log (conf (self w))); cbn;
      (split; [reflexivity|]); rewrite ?sent_app, ?app_nil_r, Hs1, Hb1, Hm1, Ho1;
      repeat split.
Qed.

Lemma update_status_waiting w :
  finite_half (water_time (conf (self w))) ->
  0 < times_water_detected (self w) ->
  lt_quot (times_water_detected (self w)) (float_half (water_time (conf (self w)))) = true ->
  exists w', update_status E w = (Ok tt, w') /\ frame w w' [].
Proof.
  intros Hfin Hpos Hlt. unfold update_status. rewrite bind_get_self.
  destruct (Z.eqb_spec (times_water_detected (self w)) 0) as [H0|_]; [lia|].
  destruct (Z.ltb_spec 0 (times_water_detected (self w))); [|lia].
  rewrite bind_cases, (bind_half _ _ _ Hfin), Hlt.
  eexists; split; [reflexivity|].
  split; cbn; try reflexivity. now rewrite sent_app.
Qed.

Lemma update_status_wet w b :
  relay_board w = Some b ->
  finite_half (water_time (conf (self w))) ->
  0 < times_water_detected (self w) ->
  ge_quot (times_water_detected (self w)) (float_half (water_time (conf (self w)))) = true ->
  exists w', update_status E w = (Ok tt, w')
    /\ self w' = set_water true (self w)
    /\ modem_open w' = modem_open w
    /\ relay_board w' = Some (red_lit (self w) b)
    /\ sent (out w') = sent (out w)
         ++ map (fun d => (d, water_text (self w))) (alert_numbers (conf (self w))).
Proof.
  intros Hb Hfin Hpos Hge. unfold update_status. rewrite bind_get_self.
  destruct (Z.eqb_spec (times_water_detected (self w)) 0) as [H0|_]; [lia|].
  destruct (Z.ltb_spec 0 (times_water_detected (self w))); [|lia].
  rewrite bind_cases, (bind_half _ _ _ Hfin), lt_quot_ge_quot, Hge. cbn [negb ret].
  rewrite (bind_half _ _ _ Hfin), Hge.
  destruct (light_ok "red" w b) as (w1 & Hrun & Hs1 & Hm1 & Ho1 & Hb1); [tauto | exact Hb |].
  rewrite (bind_ok _ _ _ _ _ Hrun).
  destruct (alert_humans_frame "water" w1 _ ltac:(red; tauto) Hb1)
    as (w2 & Hrun2 & [Hs2 Hb2 Hm2 Ho2]).
  rewrite (bind_ok _ _ _ _ _ Hrun2), bind_update_self.
  eexists; split; [reflexivity|]. cbn.
  rewrite sent_app, app_nil_r, Ho2, Hs2, Hb2, Hm2, Hs1, Hb1, Hm1, Ho1.
  repeat split.
Qed.

Lemma parse_message_attributes (m : sms) w b :
  relay_board w = Some b ->
  finite_half (disconnect_time (conf (self w))) ->
  number m = phone_number (conf (self w)) ->
  exists w1, frame w w1 (restored_round (self w)) /\
    parse_message E m w =
      (if bool_decide (text m = water_message (conf (self w)))
       then update_self (fun s' => set_times_water_detected (times_water_detected s' + 1) s') ;;
            update_status E
       else if bool_decide (text m = no_water_message (conf (self w)))
       then update_self (set_times_water_detected 0) ;;
            update_status E
       else print ("Unknown message '" +:+ text m +:+ "'"))
      (with_self (attributed (self w)) w1).
Proof.
  intros Hb Hfin Hn. unfold parse_message, restored_round. rewrite bind_get_self.
  rewrite (bool_decide_eq_true_2 _ Hn), (bind_half _ _ _ Hfin).
  destruct (ge_quot (missing_responses (self w)) (float_half (disconnect_time (conf (self w))))).
  - destruct (alert_humans_frame "restored" w b ltac:(red; tauto) Hb) as (w1 & Hrun & Hfr).
    exists w1. split; [exact Hfr|].
    rewrite (bind_ok _ _ _ _ _ Hrun), !bind_update_self.
    unfold attributed. cbn [self with_self]. now rewrite (frame_self _ _ _ Hfr).
  - exists w. split; [apply frame_refl|]. reflexivity.
Qed.

Lemma parse_message_water (m : sms) w b :
  relay_board w = Some b ->
  finite_half (disconnect_time (conf (self w))) ->
  finite_half (water_time (conf (self w))) ->
  water_reply (conf (self w)) m ->
  0 <= times_water_detected (self w) ->
  let s' := set_times_water_detected (times_water_detected (self w) + 1) (attributed (self w)) in
  exists w', parse_message E m w = (Ok tt, w')
    /\ modem_open w' = modem_open w
    /\ if ge_quot (times_water_detected (self w) + 1) (float_half (water_time (conf (self w))))
       then self w' = set_water true s'
            /\ relay_board w' = Some (red_lit (self w) b)
            /\ sent (out w') = sent (out w) ++ restored_round (self w)
                 ++ map (fun d => (d, water_text s')) (alert_numbers (conf (self w)))
       else self w' = s'
            /\ relay_board w' = Some b
            /\ sent (out w') = sent (out w) ++ restored_round (self w).
Proof.
  intros Hb HfD HfW [Hn Ht] Hpos s'.
  destruct (parse_message_attributes m w b Hb HfD Hn) as (w1 & [Hs1 Hb1 Hm1 Ho1] & ->).
  rewrite (bool_decide_eq_true_2 _ Ht), bind_update_self.
  cbn [self with_self attributed].
  set (w2 := with_self _ _).
  assert (Hs2 : self w2 = s') by reflexivity.
  assert (Hb2 : relay_board w2 = Some b) by (cbn; congruence).
  destruct (ge_quot (times_water_detected (self w) + 1)
              (float_half (water_time (conf (self w))))) eqn:Hge.
  - destruct (update_status_wet w2 b Hb2) as (w' & Hrun & Hs' & Hm' & Hb' & Ho');
      [exact HfW | rewrite Hs2; cbn; lia | exact Hge |].
    exists w'. split; [exact Hrun|]. rewrite Hm', Hs', Hb', Ho', Hs2. cbn.
    rewrite Ho1, Hm1, <- app_assoc. repeat split.
  - destruct (update_status_waiting w2) as (w' & Hrun & [Hs' Hb' Hm' Ho']);
      [exact HfW | rewrite Hs2; cbn; lia | rewrite lt_quot_ge_quot; cbn; now rewrite Hge |].
    exists w'. split; [exact Hrun|]. rewrite Hm', Hs', Hb', Ho', Hs2. cbn.
    rewrite Ho1, Hm1, app_nil_r, Hb1. repeat split; assumption.
Qed.
End Calm.

(** ** Replies and the water alert *)

Lemma filter_round (f : string * string -> bool) body dests :
  (forall d d', f (d, body) = f (d', body)) ->
  List.filter f (round body dests)
  = if f (EmptyString, body) then round body dests else [].
Proof.
  intros Hf. unfold round. induction dests as [|d l IH]; cbn [map List.filter].
  - now destruct (f (EmptyString, body)).
  - rewrite IH, (Hf d EmptyString). now destruct (f (EmptyString, body)).
Qed.

Lemma water_alerts_restored_round s :
  List.filter is_water_alert (restored_round s) = [].
Proof.
  unfold restored_round.
  destruct (ge_quot _ _); [|reflexivity].
  fold (round restored_text (alert_numbers (conf s))).
  rewrite filter_round; [reflexivity | intros; reflexivity].
Qed.

Lemma is_water_alert_water_text d s : is_water_alert (d, water_text s) = true.
Proof. vm_compute. reflexivity. Qed.

Lemma water_alerts_water_round s dests :
  List.filter is_water_alert (round (water_text s) dests) = round (water_text s) dests.
Proof.
  rewrite filter_round.
  - now rewrite is_water_alert_water_text.
  - intros d d'. now rewrite !is_water_alert_water_text.
Qed.

(** A message from another number than the target is only logged. *)
Lemma parse_message_foreign (E : env) (m : sms) (w : world) :
  number m <> phone_number (conf (self w)) ->
  parse_message E m w = (Ok tt, emit (Print ("Unknown number " +:+ number m)) w).
Proof.
  intros Hn. unfold parse_message. rewrite bind_get_self.
  now rewrite (bool_decide_eq_false_2 _ Hn).
Qed.

(** C6. A message whose sender is not the configured target number is only
    logged: [parse_message] returns normally, and the object (with
    [missing_loops], [missing_responses], [times_water_detected],
    [awaiting_message] and [water]), the relays, the modem and the count of
    gateway calls are what they were; the console has one more line. *)
Theorem parse_message_foreign_sender (E : env) (m : sms) (w : world) :
  number m <> phone_number (conf (self w)) ->
  exists w', parse_message E m w = (Ok tt, w')
    /\ self w' = self w
    /\ relay_board w' = relay_board w
    /\ modem_open w' = modem_open w
    /\ clock w' = clock w
    /\ out w' = out w ++ [Print ("Unknown number " +:+ number m)].
Proof.
  intros Hn. rewrite (parse_message_foreign E m w Hn).
  eexists. split; [reflexivity|]. now repeat split.
Qed.

Lemma parse_message_foreign_sender_witness :
  let w := snd (__init__ silent (script_config "+491" ["+492"]) 19200 1) in
  let m := Sms "+4930" "1" in
  number m <> phone_number (conf (self w))
  /\ exists w', parse_message silent m w = (Ok tt, w')
       /\ self w' = self w
       /\ relay_board w' = relay_board w
       /\ modem_open w' = modem_open w
       /\ clock w' = clock w
       /\ out w' = out w ++ [Print ("Unknown number " +:+ number m)].
Proof.
  intros w m.
  assert (H : number m <> phone_number (conf (self w))) by (vm_compute; discriminate).
  split; [exact H | exact (parse_message_foreign_sender silent m w H)].
Defined.

Section Replies.

Variable E : env.
Hypothesis relays : relays_respond E.
Hypothesis sends : send_faults_caught E.

(** What one water reply does to the streak, the flag, the relays and the
    water alerts. *)
Lemma parse_message_water_alerts (m : sms) w b :
  relay_board w = Some b ->
  finite_half (disconnect_time (conf (self w))) ->
  exact_half (water_time (conf (self w))) ->
  water_reply (conf (self w)) m ->
  0 <= times_water_detected (self w) ->
  exists w', parse_message E m w = (Ok tt, w')
    /\ conf (self w') = conf (self w)
    /\ times_water_detected (self w') = times_water_detected (self w) + 1
    /\ modem_open w' = modem_open w
    /\ if water_time (conf (self w)) <=? 2 * (times_water_detected (self w) + 1)
       then water (self w') = true
            /\ relay_board w' = Some (red_lit (self w) b)
            /\ water_alerts (out w')
               = water_alerts (out w)
                   ++ round ("Water has been detected at XFEL for the past "
                               +:+ str ((times_water_detected (self w) + 1) * 2) +:+ "m!")
                        (alert_numbers (conf (self w)))
       else water (self w') = water (self w)
            /\ relay_board w' = Some b
            /\ water_alerts (out w') = water_alerts (out w).
Proof.
  intros Hb HfD HeW Hm Hpos.
  destruct (parse_message_water E relays sends m w b Hb HfD (exact_half_finite _ HeW) Hm Hpos)
    as (w' & Hrun & Hmo & H).
  exists w'. split; [exact Hrun|].
  rewrite (ge_quot_exact _ _ HeW) in H.
  unfold water_alerts.
  destruct (water_time (conf (self w)) <=? 2 * (times_water_detected (self w) + 1)).
  - destruct H as (Hs & Hb' & Ho). rewrite Hs, Ho, Hb'. cbn.
    rewrite !List.filter_app, water_alerts_restored_round.
    fold (round (water_text (set_times_water_detected (times_water_detected (self w) + 1)
                               (attributed (self w))))
            (alert_numbers (conf (self w)))).
    rewrite water_alerts_water_round. now repeat split.
  - destruct H as (Hs & Hb' & Ho). rewrite Hs, Ho, Hb'. cbn.
    rewrite !List.filter_app, water_alerts_restored_round, app_nil_r. now repeat split.
Qed.

(** Water replies that keep the streak below the threshold change neither
    the relays nor the flag and dispatch no water alert. *)
Lemma water_replies_below_threshold (l : list sms) : forall w b,
  relay_board w = Some b ->
  finite_half (disconnect_time (conf (self w))) ->
  exact_half (water_time (conf (self w))) ->
  Forall (water_reply (conf (self w))) l ->
  0 <= times_water_detected (self w) ->
  2 * (times_water_detected (self w) + Z.of_nat (length l)) < water_time (conf (self w)) ->
  exists w', for_each (parse_message E) l w = (Ok tt, w')
    /\ conf (self w') = conf (self w)
    /\ times_water_detected (self w') = times_water_detected (self w) + Z.of_nat (length l)
    /\ modem_open w' = modem_open w
    /\ water (self w') = water (self w)
    /\ relay_board w' = Some b
    /\ water_alerts (out w') = water_alerts (out w).
Proof.
  induction l as [|m l IH]; intros w b Hb HfD HeW Hl Hpos Hlt.
  - exists w. cbn. rewrite Z.add_0_r. now repeat split.
  - inversion Hl as [|? ? Hm Hl']; subst.
    cbn [length] in Hlt. rewrite Nat2Z.inj_succ in Hlt.
    destruct (parse_message_water_alerts m w b Hb HfD HeW Hm Hpos)
      as (w1 & Hrun & Hc1 & Ht1 & Hm1 & H).
    destruct (Z.leb_spec (water_time (conf (self w))) (2 * (times_water_detected (self w) + 1)));
      [lia|].
    destruct H as (Hw1 & Hb1 & Ha1).
    destruct (IH w1 b Hb1) as (w2 & Hrun2 & Hc2 & Ht2 & Hm2 & Hw2 & Hb2 & Ha2).
    + now rewrite Hc1.
    + now rewrite Hc1.
    + now rewrite Hc1.
    + lia.
    + rewrite Hc1, Ht1. lia.
    + exists w2. cbn [for_each]. rewrite (bind_ok _ _ _ _ _ Hrun).
      split; [exact Hrun2|]. cbn [length]. rewrite Nat2Z.inj_succ.
      repeat split; try congruence. lia.
Qed.

End Replies.

(** C1 fails as stated: with the script's thresholds and one operator, the
    second water reply crosses the threshold and dispatches the alert; the
    third, with the streak never reset, dispatches it again. *)
Lemma water_alert_repeats :
  let w0 := snd (__init__ silent (script_config "+491" ["+492"]) 19200 1) in
  let m := Sms "+491" "1" in
  let w2 := snd (for_each (parse_message silent) [m; m] w0) in
  let w3 := snd (parse_message silent m w2) in
  water_alerts (out w2)
    = [("+492", "Water has been detected at XFEL for the past 4m!")]
  /\ water (self w2) = true
  /\ times_water_detected (self w2) = 2
  /\ times_water_detected (self w3) = 3
  /\ water_alerts (out w3)
    = [("+492", "Water has been detected at XFEL for the past 4m!");
       ("+492", "Water has been detected at XFEL for the past 6m!")].
Proof. vm_compute. repeat split. Qed.

(** C1 (amended). With a water threshold below 2^53 in magnitude (where
    the float quotient [water_time / 2] is the exact half) and a disconnect
    threshold whose half does not overflow a float: every water reply from
    the target number that brings or keeps the streak at or above half the
    water threshold dispatches the "water" alert to every operator number,
    whether or not the alert was dispatched before: once at the crossing and
    once more on each further water reply while the streak is not reset. *)
Theorem water_alert_on_every_confirming_reply
    (E : env) (m : sms) (w : world) (b : gset Z) :
  relays_respond E -> send_faults_caught E ->
  relay_board w = Some b ->
  finite_half (disconnect_time (conf (self w))) ->
  exact_half (water_time (conf (self w))) ->
  water_reply (conf (self w)) m ->
  0 <= times_water_detected (self w) ->
  water_time (conf (self w)) <= 2 * (times_water_detected (self w) + 1) ->
  exists w', parse_message E m w = (Ok tt, w')
    /\ times_water_detected (self w') = times_water_detected (self w) + 1
    /\ water (self w') = true
    /\ water_alerts (out w')
       = water_alerts (out w)
           ++ round ("Water has been detected at XFEL for the past "
                       +:+ str ((times_water_detected (self w) + 1) * 2) +:+ "m!")
                (alert_numbers (conf (self w))).
Proof.
  intros HE Hs Hb HfD HeW Hm Hpos Hge.
  destruct (parse_message_water_alerts E HE Hs m w b Hb HfD HeW Hm Hpos)
    as (w' & Hrun & _ & Ht & _ & H).
  destruct (Z.leb_spec (water_time (conf (self w))) (2 * (times_water_detected (self w) + 1)));
    [|lia].
  destruct H as (Hw & _ & Ha).
  exists w'. now repeat split.
Qed.

Lemma water_alert_on_every_confirming_reply_witness :
  let w0 := snd (__init__ silent (script_config "+491" ["+492"]) 19200 1) in
  let m := Sms "+491" "1" in
  let w := snd (for_each (parse_message silent) [m; m] w0) in
  water (self w) = true
  /\ exists w', parse_message silent m w = (Ok tt, w')
       /\ times_water_detected (self w') = times_water_detected (self w) + 1
       /\ water (self w') = true
       /\ water_alerts (out w')
          = water_alerts (out w)
              ++ round ("Water has been detected at XFEL for the past "
                          +:+ str ((times_water_detected (self w) + 1) * 2) +:+ "m!")
                   (alert_numbers (conf (self w))).
Proof.
  intros w0 m w. split; [reflexivity|].
  apply (water_alert_on_every_confirming_reply silent m w (red_lit (self w0) ∅)).
  - exact silent_relays_respond.
  - exact silent_send_faults_caught.
  - vm_compute. reflexivity.
  - vm_compute. reflexivity.
  - vm_compute. reflexivity.
  - split; reflexivity.
  - vm_compute. discriminate.
  - vm_compute. discriminate.
Defined.

(** C5 fails as stated: the thresholds are halved by float division, which
    raises [OverflowError] for an integer too large for a float.  With the
    script's water threshold 4 and the (even, hence accepted) disconnect
    threshold 10^400, construction succeeds and each of the W/2 = 2 water
    replies from the target number raises at the comparison of line 116,
    before the streak is touched: no alert is dispatched, no relay is
    switched and the flag stays down. *)
Lemma water_threshold_overflow :
  let c := with_thresholds (10 ^ 400) 4 (script_config "+491" ["+492"]) in
  let w0 := snd (__init__ silent c 19200 1) in
  let m := Sms "+491" "1" in
  let w1 := snd (parse_message silent m w0) in
  let w2 := snd (parse_message silent m w1) in
  fst (__init__ silent c 19200 1) = Ok tt
  /\ fst (parse_message silent m w0) = Raise OverflowError
  /\ fst (parse_message silent m w1) = Raise OverflowError
  /\ fst (for_each (parse_message silent) [m; m] w0) = Raise OverflowError
  /\ times_water_detected (self w2) = 0
  /\ water (self w2) = false
  /\ relay_board w2 = relay_board w0
  /\ water_alerts (out w2) = [].
Proof. vm_compute. repeat split. Qed.

(** C5 (amended). With the water threshold W = 2k (k at least 1) below 2^53
    (where the float quotient W / 2 is the exact half), a disconnect
    threshold whose half does not overflow a float, a streak at 0, a bound
    relay board that answers and send faults that are caught: after k - 1
    consecutive water replies from the target number the relays and the
    water flag are unchanged and no "water" alert has been dispatched; the
    k-th such reply switches the relays as [light "red"] does (red on), sets
    the flag and dispatches one "water" alert, for 2k minutes, to every
    operator number. *)
Theorem water_confirmation_threshold
    (E : env) (w : world) (b : gset Z) (k : nat) (l : list sms) (m : sms) :
  relays_respond E -> send_faults_caught E ->
  relay_board w = Some b ->
  finite_half (disconnect_time (conf (self w))) ->
  exact_half (water_time (conf (self w))) ->
  times_water_detected (self w) = 0 ->
  water_time (conf (self w)) = 2 * Z.of_nat k ->
  (1 <= k)%nat ->
  length l = (k - 1)%nat ->
  Forall (water_reply (conf (self w))) l ->
  water_reply (conf (self w)) m ->
  exists w1 w2,
    for_each (parse_message E) l w = (Ok tt, w1)
    /\ parse_message E m w1 = (Ok tt, w2)
    /\ relay_board w1 = Some b
    /\ water (self w1) = water (self w)
    /\ water_alerts (out w1) = water_alerts (out w)
    /\ relay_board w2 = Some (red_lit (self w) b)
    /\ red_relay (conf (self w)) ∈ red_lit (self w) b
    /\ water (self w2) = true
    /\ water_alerts (out w2)
       = water_alerts (out w)
           ++ round ("Water has been detected at XFEL for the past "
                       +:+ str (water_time (conf (self w))) +:+ "m!")
                (alert_numbers (conf (self w))).
Proof.
  intros HE Hs Hb HfD HeW Ht HW Hk Hlen Hl Hm.
  destruct (water_replies_below_threshold E HE Hs l w b Hb HfD HeW Hl)
    as (w1 & Hrun1 & Hc1 & Ht1 & _ & Hw1 & Hb1 & Ha1);
    [rewrite Ht; lia | rewrite Ht, HW, Hlen; lia |].
  rewrite Ht, Hlen in Ht1.
  rewrite <- Hc1 in Hm, HfD, HeW.
  destruct (parse_message_water_alerts E HE Hs m w1 b Hb1 HfD HeW Hm)
    as (w2 & Hrun2 & _ & _ & _ & H); [lia|].
  assert (Hk' : times_water_detected (self w1) + 1 = Z.of_nat k) by lia.
  rewrite Hc1, Hk', <- HW in H.
  rewrite Z.leb_refl in H. destruct H as (Hw2 & Hb2 & Ha2).
  exists w1, w2. repeat split; try assumption.
  - rewrite Hb2. unfold red_lit. now rewrite Hc1.
  - unfold red_lit. apply elem_of_union_r, elem_of_singleton. reflexivity.
  - rewrite Ha2, Ha1.
    now replace (Z.of_nat k * 2) with (water_time (conf (self w))) by lia.
Qed.

Lemma water_confirmation_threshold_witness :
  let w := snd (__init__ silent (script_config "+491" ["+492"]) 19200 1) in
  let m := Sms "+491" "1" in
  exists w1 w2,
    for_each (parse_message silent) [m] w = (Ok tt, w1)
    /\ parse_message silent m w1 = (Ok tt, w2)
    /\ relay_board w1 = Some ∅
    /\ water (self w1) = water (self w)
    /\ water_alerts (out w1) = water_alerts (out w)
    /\ relay_board w2 = Some (red_lit (self w) ∅)
    /\ red_relay (conf (self w)) ∈ red_lit (self w) (∅ : gset Z)
    /\ water (self w2) = true
    /\ water_alerts (out w2)
       = water_alerts (out w)
           ++ round ("Water has been detected at XFEL for the past "
                       +:+ str (water_time (conf (self w))) +:+ "m!")
                (alert_numbers (conf (self w))).
Proof.
  intros w m.
  apply (water_confirmation_threshold silent w ∅ 2 [m] m).
  - exact silent_relays_respond.
  - exact silent_send_faults_caught.
  - vm_compute. reflexivity.
  - vm_compute. reflexivity.
  - vm_compute. reflexivity.
  - reflexivity.
  - reflexivity.
  - lia.
  - reflexivity.
  - repeat constructor.
  - split; reflexivity.
Defined.

(** ** The gateways under any environment *)

Lemma relay_board_get_port_status_run E n w :
  relay_board_get_port_status E n w
  = match relay_board w with
    | None => (Raise (AttributeError "relay_board"), w)
    | Some b =>
        match relay_result E (clock w) with
        | Some e => (Raise e, advance w)
        | None => (Ok (bool_decide (n ∈ b)), advance w)
        end
    end.
Proof.
  unfold relay_board_get_port_status, bind, self_relay_board, gateway, ret.
  destruct (relay_board w); [|reflexivity].
  now destruct (relay_result E (clock w)).
Qed.

Lemma relay_board_on_run E n w :
  relay_board_on E n w
  = match relay_board w with
    | None => (Raise (AttributeError "relay_board"), w)
    | Some b =>
        match relay_result E (clock w) with
        | Some e => (Raise e, advance w)
        | None => (Ok tt, advance (with_board (b ∪ {[n]}) w))
        end
    end.
Proof.
  unfold relay_board_on, bind, self_relay_board, gateway.
  now destruct (relay_board w).
Qed.

Lemma relay_board_off_run E n w :
  relay_board_off E n w
  = match relay_board w with
    | None => (Raise (AttributeError "relay_board"), w)
    | Some b =>
        match relay_result E (clock w) with
        | Some e => (Raise e, advance w)
        | None => (Ok tt, advance (with_board (b ∖ {[n]}) w))
        end
    end.
Proof.
  unfold relay_board_off, bind, self_relay_board, gateway.
  now destruct (relay_board w).
Qed.

(** ** The lights *)

(** C4 fails as stated: after six reply-free cycles under the script's
    configuration amber is lit; [light "red"] then turns amber off. *)
Lemma light_red_turns_amber_off :
  let w0 := snd (__init__ silent (script_config "+491" ["+492"]) 19200 1) in
  let w := snd (while_true (cycle silent) 6 w0) in
  relay_board w = Some {[2]}
  /\ light silent "red" w
     = (Ok tt, advance (advance (advance (with_board {[1]} w)))).
Proof. vm_compute. split; reflexivity. Qed.

(** C4 (amended). On a bound relay board that answers, with three distinct
    relay channels: [light "red"] (WATER) turns red on and turns green and
    amber off; [light "amber"] (LOST_SIGNAL) turns amber on and green off
    and leaves red as it was. *)
Theorem light_red_and_amber (E : env) (w : world) (b : gset Z) :
  relays_respond E ->
  relay_board w = Some b ->
  red_relay (conf (self w)) <> amber_relay (conf (self w)) ->
  red_relay (conf (self w)) <> green_relay (conf (self w)) ->
  amber_relay (conf (self w)) <> green_relay (conf (self w)) ->
  (exists w' b', light E "red" w = (Ok tt, w')
     /\ relay_board w' = Some b'
     /\ red_relay (conf (self w)) ∈ b'
     /\ (green_relay (conf (self w)) ∉ b')
     /\ (amber_relay (conf (self w)) ∉ b'))
  /\ (exists w' b', light E "amber" w = (Ok tt, w')
     /\ relay_board w' = Some b'
     /\ amber_relay (conf (self w)) ∈ b'
     /\ (green_relay (conf (self w)) ∉ b')
     /\ ((red_relay (conf (self w)) ∈ b') <-> (red_relay (conf (self w)) ∈ b))).
Proof.
  intros HE Hb Hra Hrg Hag. split.
  - destruct (light_ok E HE "red" w b) as (w' & Hrun & _ & _ & _ & Hb'); [tauto | exact Hb |].
    exists w', (red_lit (self w) b). split; [exact Hrun|]. split; [exact Hb'|].
    unfold red_lit.
    rewrite !elem_of_union, !elem_of_difference, !elem_of_singleton.
    repeat split; [tauto | |]; intros [H|H]; try tauto; congruence.
  - destruct (light_ok E HE "amber" w b) as (w' & Hrun & _ & _ & _ & Hb'); [tauto | exact Hb |].
    exists w', (amber_lit (self w) b). split; [exact Hrun|]. split; [exact Hb'|].
    unfold amber_lit.
    rewrite !elem_of_union, !elem_of_difference, !elem_of_singleton.
    repeat split; try tauto.
    intros [H|H]; [tauto | congruence].
Qed.

Lemma light_red_and_amber_witness :
  let w0 := snd (__init__ silent (script_config "+491" ["+492"]) 19200 1) in
  let w := snd (while_true (cycle silent) 6 w0) in
  (exists w' b', light silent "red" w = (Ok tt, w')
     /\ relay_board w' = Some b'
     /\ red_relay (conf (self w)) ∈ b'
     /\ (green_relay (conf (self w)) ∉ b')
     /\ (amber_relay (conf (self w)) ∉ b'))
  /\ (exists w' b', light silent "amber" w = (Ok tt, w')
     /\ relay_board w' = Some b'
     /\ amber_relay (conf (self w)) ∈ b'
     /\ (green_relay (conf (self w)) ∉ b')
     /\ ((red_relay (conf (self w)) ∈ b') <-> (red_relay (conf (self w)) ∈ ({[2]} : gset Z)))).
Proof.
  intros w0 w.
  apply (light_red_and_amber silent w {[2]}).
  - exact silent_relays_respond.
  - vm_compute. reflexivity.
  - vm_compute. discriminate.
  - vm_compute. discriminate.
  - vm_compute. discriminate.
Defined.

(** ** Construction *)

(** C2, evaluated at the failing input: with [disconnect_time = 10] and
    [water_time = 5] the constructor raises nothing, keeps the odd
    threshold on the object, and the script goes on into the main loop
    (which is still running when the fuel is spent). *)
Theorem init_accepts_odd_water_time :
  let c := with_thresholds 10 5 (script_config "+491" ["+492"]) in
  fst (__init__ silent c 19200 1) = Ok tt
  /\ water_time (conf (self (snd (__init__ silent c 19200 1)))) = 5
  /\ fst (main silent c 19200 1) = OutOfFuel.
Proof. vm_compute. repeat split. Qed.

(** X9. Both checks of lines 63-66 read [disconnect_time]: an odd value
    raises the error that names [water_time], before anything is printed
    and before any gateway call, whatever [water_time] is; the second check
    can then never fire. *)
Lemma init_checks_disconnect_time_only (E : env) (c : Config) baudrate fuel :
  disconnect_time c mod 2 <> 0 ->
  __init__ E c baudrate fuel
  = (Raise (ValueError "'water_time' must be a multiple of 2!"), newborn c).
Proof.
  intros Hodd. unfold __init__, init_body. rewrite bind_get_self. cbn [self newborn conf].
  destruct (Z.eqb_spec (disconnect_time c mod 2) 0); [contradiction|]. reflexivity.
Qed.

(** ** The exception handler *)

(** C10, evaluated at the failing input: when the modem cannot be reached
    during construction, the failure is caught at line 75 with logging
    enabled and the handler is entered from line 76, before line 79 binds
    [self.relay_board]: the handler raises [AttributeError] at line 152,
    before its logging block, construction ends with that exception, and
    the fallback line is not printed. *)
Theorem handler_without_fallback_line :
  let c := script_config "+491" ["+492"] in
  log c = true
  /\ fst (__init__ modem_unreachable c 19200 3) = Raise (AttributeError "relay_board")
  /\ printed (out (snd (__init__ modem_unreachable c 19200 3)))
     = ["Connecting modem";
        "Encountered a TimeoutException while connecting the modem. Trying again."].
Proof. vm_compute. repeat split. Qed.

(** X20. With logging enabled the handler never prints a signal
    strength: it prints its first line and then either returns, having
    printed the fallback line "Unable to get signal strength." (the read of
    the unbound name [modem] raised [NameError], caught by the nested
    handler), or leaves with an exception of the relay board, having printed
    nothing more.  It returns whenever [self.relay_board] is bound and the
    board answers. *)
Theorem signal_strength_never_logged (E : env) (e : exn) (task : string) (w : world) :
  log (conf (self w)) = true ->
  (exists r w', exception_handler E e task w = (r, w')
     /\ ((r = Ok tt
          /\ out w' = out w ++ [Print (encountered e task);
                                Print "Unable to get signal strength."])
         \/ (exists e', r = Raise e'
             /\ out w' = out w ++ [Print (encountered e task)])))
  /\ (relays_respond E -> is_Some (relay_board w) ->
      exists w', exception_handler E e task w = (Ok tt, w')
        /\ out w' = out w ++ [Print (encountered e task);
                              Print "Unable to get signal strength."]).
Proof.
  intros Hlog.
  assert (Hall : exists r w', exception_handler E e task w = (r, w')
     /\ ((r = Ok tt
          /\ out w' = out w ++ [Print (encountered e task);
                                Print "Unable to get signal strength."])
         \/ (exists e', r = Raise e'
             /\ out w' = out w ++ [Print (encountered e task)]))
     /\ (relays_respond E -> is_Some (relay_board w) -> r = Ok tt)).
  { unfold exception_handler. fold (encountered e task).
    rewrite bind_print, bind_get_self. cbn [self emit]. rewrite Hlog.
    set (a := amber_relay (conf (self w))).
    set (w1 := emit (Print (encountered e task)) w).
    assert (Hout : forall x, out x = out w1 ->
              out (emit (Print "Unable to get signal strength.") x)
              = out w ++ [Print (encountered e task);
                          Print "Unable to get signal strength."]).
    { intros x Hx. cbn. rewrite Hx. cbn. now rewrite <- app_assoc. }
    rewrite bind_cases, relay_board_get_port_status_run.
    change (relay_board w1) with (relay_board w).
    change (clock w1) with (clock w).
    destruct (relay_board w) as [b|] eqn:Hb.
    2:{ do 2 eexists. split; [reflexivity|]. split.
        - right. eexists. split; reflexivity.
        - intros _ [x Hx]. discriminate Hx. }
    destruct (relay_result E (clock w)) as [e1|] eqn:H1.
    { do 2 eexists. split; [reflexivity|]. split.
      - right. eexists. split; reflexivity.
      - intros HE _. rewrite HE in H1. discriminate H1. }
    destruct (bool_decide (a ∈ b)); cbn [negb].
    { rewrite bind_ret, signal_strength_log_fails.
      do 2 eexists. split; [reflexivity|]. split.
      - left. split; [reflexivity|]. now apply Hout.
      - reflexivity. }
    rewrite bind_cases, bind_cases, relay_board_on_run.
    change (relay_board (advance w1)) with (relay_board w). rewrite Hb.
    change (clock (advance w1)) with (S (clock w)).
    destruct (relay_result E (S (clock w))) as [e2|] eqn:H2.
    { do 2 eexists. split; [reflexivity|]. split.
      - right. eexists. split; reflexivity.
      - intros HE _. rewrite HE in H2. discriminate H2. }
    unfold sleep. rewrite bind_ret, relay_board_off_run.
    cbn [relay_board advance with_board clock].
    change (clock w1) with (clock w).
    destruct (relay_result E (S (S (clock w)))) as [e3|] eqn:H3.
    { do 2 eexists. split; [reflexivity|]. split.
      - right. eexists. split; reflexivity.
      - intros HE _. rewrite HE in H3. discriminate H3. }
    rewrite signal_strength_log_fails.
    do 2 eexists. split; [reflexivity|]. split.
    - left. split; [reflexivity|]. now apply Hout.
    - reflexivity. }
  destruct Hall as (r & w' & Hrun & Hcases & Hok). split.
  - exists r, w'. split; assumption.
  - intros HE Hb. exists w'. specialize (Hok HE Hb). subst r.
    split; [exact Hrun|].
    destruct Hcases as [[_ H]|(e' & H & _)]; [exact H | discriminate H].
Qed.

Lemma signal_strength_never_logged_witness :
  let w := snd (__init__ silent (script_config "+491" ["+492"]) 19200 1) in
  let e := Exn "TimeoutException" "" true in
  exists w', exception_handler silent e "checking for new messages" w = (Ok tt, w')
    /\ out w' = out w ++ [Print (encountered e "checking for new messages");
                          Print "Unable to get signal strength."].
Proof.
  intros w e.
  apply (signal_strength_never_logged silent e "checking for new messages" w).
  - reflexivity.
  - exact silent_relays_respond.
  - exists ∅. vm_compute. reflexivity.
Defined.

(** ** The tick and the end of the cycle *)

Lemma for_each_foreign E (msgs : list sms) : forall w,
  Forall (fun m => number m <> phone_number (conf (self w))) msgs ->
  exists w', for_each (parse_message E) msgs w = (Ok tt, w')
    /\ self w' = self w /\ relay_board w' = relay_board w
    /\ modem_open w' = modem_open w /\ clock w' = clock w.
Proof.
  induction msgs as [|m l IH]; intros w Hall.
  - exists w. now repeat split.
  - inversion Hall as [|? ? Hm Hl]; subst.
    destruct (IH (emit (Print ("Unknown number " +:+ number m)) w) Hl)
      as (w2 & Hrun2 & Hs2 & Hb2 & Hmo2 & Hc2).
    exists w2. cbn [for_each].
    rewrite (bind_ok _ _ _ _ _ (parse_message_foreign E m w Hm)).
    split; [exact Hrun2|]. now repeat split.
Qed.

(** C9. When the drain of a tick returns at least one message,
    [check_for_answer] does nothing but parse the messages in turn: no
    increment of [missing_loops] is made; if none of the messages comes from
    the target number, the object is left as it was, although
    [awaiting_message] may still be true.  When the drain returns no
    message, [missing_loops] is incremented by one if [awaiting_message] is
    true and left alone if it is false.  So the increment happens exactly
    when the drain was empty while a reply was awaited. *)
Theorem missing_loops_counts_empty_drains_only (E : env) (w : world) (msgs : list sms) :
  listStoredSms_result E (clock w) = inr msgs ->
  (msgs <> [] ->
     check_for_answer E w = for_each (parse_message E) msgs (advance w)
     /\ (Forall (fun m => number m <> phone_number (conf (self w))) msgs ->
         exists w', check_for_answer E w = (Ok tt, w') /\ self w' = self w))
  /\ (msgs = [] -> forall n, missing_loops (self w) = Some n ->
       (awaiting_message (self w) = Some true ->
          exists w', check_for_answer E w = (Ok tt, w')
            /\ self w' = set_missing_loops (n + 1) (self w))
       /\ (awaiting_message (self w) = Some false ->
          exists w', check_for_answer E w = (Ok tt, w') /\ self w' = self w)).
Proof.
  intros Hdrain.
  assert (Hlist : try_except (modem_listStoredSms E)
                    (fun e => exception_handler E e "checking for new messages" ;; ret []) w
                  = (Ok msgs, advance w)).
  { unfold try_except, modem_listStoredSms. now rewrite Hdrain. }
  unfold check_for_answer. rewrite (bind_ok _ _ _ _ _ Hlist). split.
  - intros Hne. destruct msgs as [|m l]; [contradiction|].
    cbn [length Nat.eqb]. rewrite bind_ret. split; [reflexivity|].
    intros Hall.
    destruct (for_each_foreign E (m :: l) (advance w) Hall) as (w' & Hrun & Hs & _).
    exists w'. split; [exact Hrun | exact Hs].
  - intros -> n Hn. cbn [length Nat.eqb for_each]. split; intros Ha.
    + rewrite bind_cases.
      rewrite (bind_attribute "awaiting_message" awaiting_message _ (advance w) true Ha).
      rewrite (bind_attribute "missing_loops" missing_loops _ (advance w) n Hn).
      eexists. split; reflexivity.
    + rewrite bind_cases.
      rewrite (bind_attribute "awaiting_message" awaiting_message _ (advance w) false Ha).
      eexists. split; reflexivity.
Qed.

Lemma missing_loops_counts_empty_drains_only_witness :
  let E := stranger_writes in
  let w := snd (request_status E
                  (snd (__init__ E (script_config "+491" ["+492"]) 19200 1))) in
  let msgs := [Sms "+4930" "1"] in
  awaiting_message (self w) = Some true
  /\ missing_loops (self w) = Some 0
  /\ exists w', check_for_answer E w = (Ok tt, w') /\ self w' = self w.
Proof.
  intros E w msgs. split; [reflexivity|]. split; [reflexivity|].
  assert (Hdrain : listStoredSms_result E (clock w) = inr msgs) by reflexivity.
  assert (Hne : msgs <> []) by discriminate.
  assert (Hall : Forall (fun m => number m <> phone_number (conf (self w))) msgs)
    by (repeat constructor; vm_compute; discriminate).
  exact (proj2 (proj1 (missing_loops_counts_empty_drains_only E w msgs Hdrain) Hne) Hall).
Defined.

(** X12. A drain that fails with an exception deriving from [Exception]
    counts as an empty one: on a bound relay board that answers, while a
    reply is awaited, [check_for_answer] returns and [missing_loops] is one
    more. *)
Lemma failed_drain_counts_as_empty (E : env) (w : world) (e : exn) b n :
  relays_respond E -> relay_board w = Some b ->
  listStoredSms_result E (clock w) = inl e -> ordinary e = true ->
  missing_loops (self w) = Some n -> awaiting_message (self w) = Some true ->
  exists w', check_for_answer E w = (Ok tt, w')
    /\ self w' = set_missing_loops (n + 1) (self w).
Proof.
  intros HE Hb Hdrain Hord Hn Ha.
  destruct (exception_handler_frame E e "checking for new messages" (advance w) b HE Hb)
    as (w1 & Hrun & [Hs1 _ _ _]).
  assert (Hlist : try_except (modem_listStoredSms E)
                    (fun e => exception_handler E e "checking for new messages" ;; ret []) w
                  = (Ok [], w1)).
  { unfold try_except, modem_listStoredSms. rewrite Hdrain, Hord.
    now rewrite (bind_ok _ _ _ _ _ Hrun). }
  unfold check_for_answer. rewrite (bind_ok _ _ _ _ _ Hlist).
  cbn [length Nat.eqb for_each]. rewrite bind_cases.
  rewrite (bind_attribute "awaiting_message" awaiting_message _ w1 true)
    by (rewrite Hs1; exact Ha).
  rewrite (bind_attribute "missing_loops" missing_loops _ w1 n)
    by (rewrite Hs1; exact Hn).
  eexists. split; [reflexivity|]. cbn. now rewrite Hs1.
Qed.

(** The count at the end of a cycle, lines 211-213. *)
Lemma count_missing_cycle (w : world) (n : Z) :
  exists w1,
    (if n =? 12
     then update_self (fun s => set_missing_responses (missing_responses s + 1) s) ;;
          s <- get_self ;;
          print ("No answer received in the last "
                   +:+ str (missing_responses s * 2) +:+ "m!")
     else ret tt) w = (Ok tt, w1)
    /\ missing_responses (self w1)
       = (if n =? 12 then missing_responses (self w) + 1 else missing_responses (self w))
    /\ same_but_responses (self w) (self w1)
    /\ relay_board w1 = relay_board w
    /\ modem_open w1 = modem_open w
    /\ sent (out w1) = sent (out w)
    /\ clock w1 = clock w.
Proof.
  unfold same_but_responses. destruct (n =? 12).
  - eexists. split; [reflexivity|]. cbn. rewrite sent_app, app_nil_r. now repeat split.
  - exists w. now repeat split.
Qed.

(** The end of a cycle whose count stays below the threshold: under any
    environment, no gateway call is made. *)
Lemma cycle_end_no_alert (E : env) (w : world) (n : Z) :
  missing_loops (self w) = Some n ->
  finite_half (disconnect_time (conf (self w))) ->
  let missing := if n =? 12 then missing_responses (self w) + 1
                 else missing_responses (self w) in
  ge_quot missing (float_half (disconnect_time (conf (self w)))) = false ->
  exists w', cycle_end E w = (Ok tt, w')
    /\ missing_responses (self w') = missing
    /\ same_but_responses (self w) (self w')
    /\ relay_board w' = relay_board w
    /\ modem_open w' = modem_open w
    /\ sent (out w') = sent (out w)
    /\ clock w' = clock w.
Proof.
  intros Hn Hfin missing Hlt.
  unfold cycle_end. rewrite (bind_attribute "missing_loops" missing_loops _ w n Hn).
  destruct (count_missing_cycle w n) as (w1 & Hrun & Hm & Hsame & Hb & Hmo & Ho & Hc).
  rewrite (bind_ok _ _ _ _ _ Hrun), bind_get_self.
  destruct Hsame as (Hconf & Hrest). rewrite Hconf, (bind_half _ _ _ Hfin), Hm.
  fold missing. rewrite Hlt.
  exists w1. unfold same_but_responses. now repeat split.
Qed.

(** The end of a cycle whose count is at or above the threshold: amber is
    lit and the "disconnect" round is sent. *)
Lemma cycle_end_alerts (E : env) (w : world) (b : gset Z) (n : Z) :
  relays_respond E -> send_faults_caught E ->
  relay_board w = Some b ->
  missing_loops (self w) = Some n ->
  finite_half (disconnect_time (conf (self w))) ->
  let missing := if n =? 12 then missing_responses (self w) + 1
                 else missing_responses (self w) in
  ge_quot missing (float_half (disconnect_time (conf (self w)))) = true ->
  exists w', cycle_end E w = (Ok tt, w')
    /\ missing_responses (self w') = missing
    /\ same_but_responses (self w) (self w')
    /\ relay_board w' = Some (amber_lit (self w) b)
    /\ modem_open w' = modem_open w
    /\ sent (out w')
       = sent (out w)
           ++ round ("The connection to the flood monitoring system at XFEL has been lost for "
                       +:+ str (missing * 2) +:+ "m.")
                (alert_numbers (conf (self w))).
Proof.
  intros HE Hs Hb Hn Hfin missing Hge.
  unfold cycle_end. rewrite (bind_attribute "missing_loops" missing_loops _ w n Hn).
  destruct (count_missing_cycle w n) as (w1 & Hrun1 & Hm1 & Hsame & Hb1 & Hmo1 & Ho1 & _).
  rewrite (bind_ok _ _ _ _ _ Hrun1), bind_get_self.
  pose proof Hsame as (Hc1 & _).
  rewrite Hc1, (bind_half _ _ _ Hfin), Hm1. fold missing. rewrite Hge.
  rewrite bind_print.
  set (w2 := emit _ w1).
  destruct (light_ok E HE "amber" w2 b) as (w3 & Hrun3 & Hs3 & Hmo3 & Ho3 & Hb3);
    [tauto | cbn; congruence |].
  rewrite (bind_ok _ _ _ _ _ Hrun3).
  destruct (alert_humans_frame E HE Hs "disconnect" w3 _ ltac:(red; tauto) Hb3)
    as (w4 & Hrun4 & [Hs4 Hb4 Hmo4 Ho4]).
  exists w4. split; [exact Hrun4|].
  rewrite Hs4, Hs3, Hb4, Hb3, Hmo4, Hmo3. cbn [self emit w2 modem_open].
  split; [exact Hm1|]. split; [exact Hsame|].
  split; [unfold lit, amber_lit; literals; now rewrite Hc1|].
  split; [exact Hmo1|].
  rewrite Ho4, Hs3, Ho3. cbn [self out emit w2].
  rewrite sent_app, app_nil_r, Ho1, Hc1.
  unfold round, alert_text; literals. unfold disconnect_text. now rewrite Hm1.
Qed.

Lemma is_disconnect_alert_disconnect_text d s :
  is_disconnect_alert (d, disconnect_text s) = true.
Proof. vm_compute. reflexivity. Qed.

(** C3 fails as stated: under the script's configuration with one operator
    and an inbox that stays empty, the fifth cycle crosses the disconnect
    threshold and sends the alert; the sixth cycle, with the condition never
    cleared, sends it again. *)
Lemma disconnect_alert_repeats :
  let w0 := snd (__init__ silent (script_config "+491" ["+492"]) 19200 1) in
  let w4 := snd (while_true (cycle silent) 4 w0) in
  let w5 := snd (while_true (cycle silent) 5 w0) in
  let w6 := snd (while_true (cycle silent) 6 w0) in
  disconnect_alerts (out w4) = []
  /\ missing_responses (self w5) = 5
  /\ disconnect_alerts (out w5)
     = [("+492", "The connection to the flood monitoring system at XFEL has been lost for 10m.")]
  /\ missing_responses (self w6) = 6
  /\ disconnect_alerts (out w6)
     = [("+492", "The connection to the flood monitoring system at XFEL has been lost for 10m.");
        ("+492", "The connection to the flood monitoring system at XFEL has been lost for 12m.")].
Proof. vm_compute. repeat split. Qed.

(** C3 (amended). With a disconnect threshold below 2^53 in magnitude
    (where the float quotient [disconnect_time / 2] is the exact half): at
    the end of every outer cycle at which [missing_responses] (counted up
    first if [missing_loops] is 12 at that point) is at or above half the
    disconnect threshold, the relays are switched as [light "amber"] does
    (amber on) and one "disconnect" alert is sent to every operator number:
    at the crossing, and again at the end of each further cycle for as long
    as the counter stays there. *)
Theorem disconnect_alert_every_cycle (E : env) (w : world) (b : gset Z) (n : Z) :
  relays_respond E -> send_faults_caught E ->
  relay_board w = Some b ->
  missing_loops (self w) = Some n ->
  exact_half (disconnect_time (conf (self w))) ->
  let missing := if n =? 12 then missing_responses (self w) + 1
                 else missing_responses (self w) in
  disconnect_time (conf (self w)) <= 2 * missing ->
  exists w', cycle_end E w = (Ok tt, w')
    /\ missing_responses (self w') = missing
    /\ relay_board w' = Some (amber_lit (self w) b)
    /\ amber_relay (conf (self w)) ∈ amber_lit (self w) b
    /\ disconnect_alerts (out w')
       = disconnect_alerts (out w)
           ++ round ("The connection to the flood monitoring system at XFEL has been lost for "
                       +:+ str (missing * 2) +:+ "m.")
                (alert_numbers (conf (self w))).
Proof.
  intros HE Hs Hb Hn Hex missing Hge.
  destruct (cycle_end_alerts E w b n HE Hs Hb Hn (exact_half_finite _ Hex))
    as (w' & Hrun & Hm & _ & Hb' & _ & Ho).
  { rewrite (ge_quot_exact _ _ Hex). apply Z.leb_le. exact Hge. }
  exists w'. split; [exact Hrun|]. split; [exact Hm|]. split; [exact Hb'|].
  split; [unfold amber_lit; apply elem_of_union_r, elem_of_singleton; reflexivity|].
  unfold disconnect_alerts. fold missing in Ho. rewrite Ho, List.filter_app.
  f_equal.
  change ("The connection to the flood monitoring system at XFEL has been lost for "
            +:+ str (missing * 2) +:+ "m.")
    with (disconnect_text (set_missing_responses missing (self w))).
  rewrite filter_round.
  - now rewrite is_disconnect_alert_disconnect_text.
  - intros d d'. now rewrite !is_disconnect_alert_disconnect_text.
Qed.

Lemma disconnect_alert_every_cycle_witness :
  let w0 := snd (__init__ silent (script_config "+491" ["+492"]) 19200 1) in
  let w := snd (for_range (tick silent) 0 12 (snd (while_true (cycle silent) 5 w0))) in
  missing_responses (self w) = 5
  /\ exists w', cycle_end silent w = (Ok tt, w')
       /\ missing_responses (self w') = 6
       /\ relay_board w' = Some (amber_lit (self w) {[2]})
       /\ amber_relay (conf (self w)) ∈ amber_lit (self w) ({[2]} : gset Z)
       /\ disconnect_alerts (out w')
          = disconnect_alerts (out w)
              ++ round ("The connection to the flood monitoring system at XFEL has been lost for "
                          +:+ str (6 * 2) +:+ "m.")
                   (alert_numbers (conf (self w))).
Proof.
  intros w0 w. split; [reflexivity|].
  apply (disconnect_alert_every_cycle silent w {[2]} 12).
  - exact silent_relays_respond.
  - exact silent_send_faults_caught.
  - vm_compute. reflexivity.
  - reflexivity.
  - vm_compute. reflexivity.
  - vm_compute. discriminate.
Defined.

(** ** The range of [missing_loops] *)

#[local] Instance same_loops_preorder : PreOrder same_loops.
Proof.
  split.
  - intros s. reflexivity.
  - intros s1 s2 s3 H12 H23. unfold same_loops in *. congruence.
Qed.

#[local] Instance loops_reset_preorder : PreOrder loops_reset.
Proof.
  split.
  - intros s. now left.
  - intros s1 s2 s3 [H12|H12] [H23|H23]; unfold loops_reset; rewrite ?H23, ?H12; auto.
Qed.


Section Moves.

Context (R : relation WaterAlarm) `{!PreOrder R}.

Lemma moves_still {A} (m : M A) : (forall w, self (snd (m w)) = self w) -> moves R m.
Proof. intros H w. rewrite H. reflexivity. Qed.

Lemma moves_bind {A B} (m : M A) (k : A -> M B) :
  moves R m -> (forall a, moves R (k a)) -> moves R (bind m k).
Proof.
  intros Hm Hk w. specialize (Hm w). rewrite bind_cases.
  destruct (m w) as [[a|e|] w1]; cbn [snd] in *; try exact Hm.
  transitivity (self w1); [exact Hm | apply Hk].
Qed.

Lemma moves_try_except {A} (m : M A) (h : exn -> M A) :
  moves R m -> (forall e, moves R (h e)) -> moves R (try_except m h).
Proof.
  intros Hm Hh w. specialize (Hm w). unfold try_except.
  destruct (m w) as [[a|e|] w1]; cbn [snd] in *; try exact Hm.
  destruct (ordinary e); [|exact Hm].
  transitivity (self w1); [exact Hm | apply Hh].
Qed.

Lemma moves_for_each {A} (f : A -> M unit) (l : list A) :
  (forall x, moves R (f x)) -> moves R (for_each f l).
Proof.
  intros Hf. induction l as [|x l IH]; cbn [for_each].
  - now apply moves_still.
  - apply moves_bind; [apply Hf | intros _; exact IH].
Qed.

Lemma moves_update_self (f : WaterAlarm -> WaterAlarm) :
  (forall s, R s (f s)) -> moves R (update_self f).
Proof. intros Hf w. apply Hf. Qed.

Lemma moves_half n : moves R (half n).
Proof. apply moves_still. intros w. unfold half. now destruct (half_overflows n). Qed.

Lemma moves_gateway answer effect :
  (forall w, self (effect w) = self w) -> moves R (gateway answer effect).
Proof.
  intros He. apply moves_still. intros w. unfold gateway.
  destruct (answer (clock w)); [reflexivity | exact (He w)].
Qed.

Lemma moves_relay_board_on E n : moves R (relay_board_on E n).
Proof.
  apply moves_still. intros w. rewrite relay_board_on_run.
  destruct (relay_board w); [|reflexivity]. now destruct (relay_result E (clock w)).
Qed.

Lemma moves_relay_board_off E n : moves R (relay_board_off E n).
Proof.
  apply moves_still. intros w. rewrite relay_board_off_run.
  destruct (relay_board w); [|reflexivity]. now destruct (relay_result E (clock w)).
Qed.

Lemma moves_relay_board_get_port_status E n : moves R (relay_board_get_port_status E n).
Proof.
  apply moves_still. intros w. rewrite relay_board_get_port_status_run.
  destruct (relay_board w); [|reflexivity]. now destruct (relay_result E (clock w)).
Qed.

Lemma moves_modem_sendSms E dest message : moves R (modem_sendSms E dest message).
Proof.
  apply moves_still. intros w. unfold modem_sendSms, gateway.
  now destruct (sendSms_result E _).
Qed.

Lemma moves_modem_listStoredSms E : moves R (modem_listStoredSms E).
Proof.
  apply moves_still. intros w. unfold modem_listStoredSms.
  now destruct (listStoredSms_result E _).
Qed.

Lemma moves_exception_handler E e task : moves R (exception_handler E e task).
Proof.
  unfold exception_handler.
  apply moves_bind; [now apply moves_still | intros _].
  apply moves_bind; [now apply moves_still | intros s].
  apply moves_bind; [apply moves_relay_board_get_port_status | intros lit].
  apply moves_bind.
  - destruct (negb lit); [|now apply moves_still].
    apply moves_bind; [apply moves_relay_board_on | intros _].
    apply moves_bind; [now apply moves_still | intros _].
    apply moves_relay_board_off.
  - intros _. destruct (log (conf s)); [|now apply moves_still].
    apply moves_still. intros w. now rewrite signal_strength_log_fails.
Qed.

Lemma moves_send_message E dest message : moves R (send_message E dest message).
Proof.
  unfold send_message. apply moves_try_except.
  - apply moves_modem_sendSms.
  - intros e. apply moves_exception_handler.
Qed.

Lemma moves_alert_humans E event : moves R (alert_humans E event).
Proof.
  unfold alert_humans.
  apply moves_bind; [now apply moves_still | intros s].
  apply moves_for_each. intros dest.
  apply moves_bind; [now apply moves_still | intros s'].
  repeat match goal with
         | |- moves _ (if ?c then _ else _) => destruct c
         end; try apply moves_send_message.
  now apply moves_still.
Qed.

Lemma moves_light E colour : moves R (light E colour).
Proof.
  unfold light.
  apply moves_bind; [now apply moves_still | intros s].
  repeat match goal with
         | |- moves _ (if ?c then _ else _) => destruct c
         end;
    repeat first [ apply moves_relay_board_on
                 | apply moves_relay_board_off
                 | apply moves_bind; [|intros _] ].
  now apply moves_still.
Qed.

End Moves.















(** [while True] with fuel [n] is its first [n] passes, still running. *)
Lemma while_true_passes (body : M unit) (n : nat) w :
  while_true body n w = (passes body n ;; out_of_fuel) w.
Proof.
  revert w. induction n as [|n IH]; intros w; [reflexivity|].
  cbn [while_true passes]. rewrite !bind_cases.
  destruct (body w) as [[[]|e|] w1]; try reflexivity. now rewrite IH.
Qed.




(** ** Leaving the main loop *)

Lemma relay_board_all_off_run E w :
  relay_board_all_off E w
  = match relay_board w with
    | None => (Raise (AttributeError "relay_board"), w)
    | Some b =>
        match relay_result E (clock w) with
        | Some e => (Raise e, advance w)
        | None => (Ok tt, advance (with_board ∅ w))
        end
    end.
Proof.
  unfold relay_board_all_off, bind, self_relay_board, gateway.
  now destruct (relay_board w).
Qed.

(** [while True] has no normal end. *)
Lemma while_true_never_returns (body : M unit) (fuel : nat) : forall w,
  fst (while_true body fuel w) <> Ok tt.
Proof.
  induction fuel as [|fuel IH]; intros w; cbn [while_true]; [discriminate|].
  rewrite bind_cases. destruct (body w) as [[[]|e|] w1]; [apply IH | discriminate | discriminate].
Qed.

(** While the loop runs, the [finally] block has not been entered. *)
Lemma mainloop_running E fuel w w1 :
  while_true (cycle E) fuel w = (OutOfFuel, w1) -> mainloop E fuel w = (OutOfFuel, w1).
Proof. intros H. unfold mainloop, try_finally. now rewrite H. Qed.

(** C8 fails as stated: the relay board stops answering after
    construction; the fifth cycle ends in [light "amber"], whose relay call
    (number 73) raises and leaves the loop; in the cleanup block [all_off]
    (call 74) raises as well, that exception is what [mainloop] ends with,
    and [modem.close] is never called: the modem connection stays open. *)
Lemma cleanup_fault_skips_close :
  let w0 := snd (__init__ relay_board_dies (script_config "+491" ["+492"]) 19200 1) in
  fst (while_true (cycle relay_board_dies) 5 w0)
    = Raise (Exn "OSError" "relay call 73" true)
  /\ fst (mainloop relay_board_dies 5 w0)
    = Raise (Exn "OSError" "relay call 74" true)
  /\ modem_open (snd (mainloop relay_board_dies 5 w0)) = true.
Proof. vm_compute. repeat split. Qed.

(** C8 (amended). The main loop has no normal end: it is left only by an
    exception, and then the cleanup block runs from the state of the fault,
    calling [all_off] first.  When [all_off] completes, all relays are off
    and [close] is called; when [close] completes too, the modem is closed
    and the exception that left the loop propagates.  Nothing raised in the
    cleanup block is swallowed: an exception of [close] propagates in place
    of the pending one, and an exception of [all_off] propagates at once, so
    that [close] is not called and relays and modem stay as they were. *)
Theorem cleanup_on_exit (E : env) (fuel : nat) (w : world) :
  fst (mainloop E fuel w) <> Ok tt
  /\ (forall w1, while_true (cycle E) fuel w = (OutOfFuel, w1) ->
        mainloop E fuel w = (OutOfFuel, w1))
  /\ (forall e w1 b,
        while_true (cycle E) fuel w = (Raise e, w1) ->
        relay_board w1 = Some b ->
        (relay_result E (clock w1) = None -> close_result E (S (clock w1)) = None ->
           exists w2, mainloop E fuel w = (Raise e, w2)
             /\ relay_board w2 = Some ∅ /\ modem_open w2 = false /\ self w2 = self w1)
        /\ (forall e2, relay_result E (clock w1) = None ->
              close_result E (S (clock w1)) = Some e2 ->
              exists w2, mainloop E fuel w = (Raise e2, w2)
                /\ relay_board w2 = Some ∅ /\ modem_open w2 = modem_open w1)
        /\ (forall e1, relay_result E (clock w1) = Some e1 ->
              exists w2, mainloop E fuel w = (Raise e1, w2)
                /\ relay_board w2 = Some b /\ modem_open w2 = modem_open w1
                /\ clock w2 = S (clock w1))).
Proof.
  split; [|split].
  - unfold mainloop, try_finally.
    pose proof (while_true_never_returns (cycle E) fuel w) as Hnever.
    destruct (while_true (cycle E) fuel w) as [[[]|e|] w1]; cbn [fst] in *;
      [contradiction | | discriminate].
    destruct (cleanup E w1) as [[[]|e'|] w2]; discriminate.
  - apply mainloop_running.
  - intros e w1 b Hloop Hb. unfold mainloop, try_finally, cleanup. rewrite Hloop.
    rewrite bind_cases, relay_board_all_off_run, Hb.
    unfold modem_close, gateway.
    split; [|split].
    + intros Hoff Hclose. rewrite Hoff. cbn [clock advance with_board]. rewrite Hclose.
      eexists. split; [reflexivity|]. now repeat split.
    + intros e2 Hoff Hclose. rewrite Hoff. cbn [clock advance with_board]. rewrite Hclose.
      eexists. split; [reflexivity|]. now repeat split.
    + intros e1 Hoff. rewrite Hoff.
      eexists. split; [reflexivity|]. now repeat split.
Qed.

Lemma cleanup_on_exit_witness :
  let E := interrupted in
  let w := snd (__init__ E (script_config "+491" ["+492"]) 19200 1) in
  let w1 := snd (while_true (cycle E) 1 w) in
  let e := Exn "KeyboardInterrupt" "" false in
  exists w2, mainloop E 1 w = (Raise e, w2)
    /\ relay_board w2 = Some ∅ /\ modem_open w2 = false /\ self w2 = self w1.
Proof.
  intros E w w1 e.
  assert (Hloop : while_true (cycle E) 1 w = (Raise e, w1)) by (vm_compute; reflexivity).
  assert (Hb : relay_board w1 = Some ∅) by (vm_compute; reflexivity).
  exact (proj1 (proj2 (proj2 (cleanup_on_exit E 1 w)) e w1 ∅ Hloop Hb) eq_refl eq_refl).
Defined.

(** * Further properties *)

(** ** Replies from the target number *)

(** X1. A reply from the target number that carries the no-water text (and
    not the water text), on a bound relay board that answers, with send
    faults that are caught and a disconnect threshold whose half does not
    overflow a float: the streak and the water flag are cleared, the
    connection counters are reset, the relays are switched as
    [light "green"] does (green on), and after the "restored" round, if one
    was due, one "removed" alert goes to every operator number if the water
    flag was set, and none if it was not. *)
Theorem no_water_reply_clears (E : env) (m : sms) (w : world) (b : gset Z) :
  relays_respond E -> send_faults_caught E ->
  relay_board w = Some b ->
  finite_half (disconnect_time (conf (self w))) ->
  number m = phone_number (conf (self w)) ->
  text m <> water_message (conf (self w)) ->
  text m = no_water_message (conf (self w)) ->
  exists w', parse_message E m w = (Ok tt, w')
    /\ self w' = set_water false (set_times_water_detected 0 (attributed (self w)))
    /\ relay_board w' = Some (green_lit (self w) b)
    /\ green_relay (conf (self w)) ∈ green_lit (self w) b
    /\ sent (out w')
       = sent (out w) ++ restored_round (self w)
           ++ (if water (self w)
               then round removed_text (alert_numbers (conf (self w)))
               else []).
Proof.
  intros HE Hs Hb Hfin Hn Hnw Hd.
  destruct (parse_message_attributes E HE Hs m w b Hb Hfin Hn) as (w1 & [Hs1 Hb1 Hm1 Ho1] & ->).
  rewrite (bool_decide_eq_false_2 _ Hnw), (bool_decide_eq_true_2 _ Hd), bind_update_self.
  set (w2 := with_self (set_times_water_detected 0 _) _).
  assert (Hb2 : relay_board w2 = Some b) by (cbn; congruence).
  destruct (update_status_dry E HE Hs w2 b Hb2 eq_refl) as (w' & Hrun & Hs' & _ & Hb' & Ho').
  exists w'. split; [exact Hrun|].
  rewrite Hs', Hb', Ho'. cbn [self out w2 with_self relay_board].
  rewrite Ho1. cbn. rewrite <- app_assoc.
  repeat split.
  unfold green_lit. apply elem_of_union_r, elem_of_singleton. reflexivity.
Qed.

Lemma no_water_reply_clears_witness :
  let w0 := snd (__init__ silent (script_config "+491" ["+492"]) 19200 1) in
  let w := snd (for_each (parse_message silent) [Sms "+491" "1"; Sms "+491" "1"] w0) in
  let m := Sms "+491" "0" in
  water (self w) = true
  /\ exists w', parse_message silent m w = (Ok tt, w')
       /\ self w' = set_water false (set_times_water_detected 0 (attributed (self w)))
       /\ relay_board w' = Some (green_lit (self w) {[1]})
       /\ green_relay (conf (self w)) ∈ green_lit (self w) ({[1]} : gset Z)
       /\ sent (out w')
          = sent (out w) ++ restored_round (self w)
              ++ (if water (self w)
                  then round removed_text (alert_numbers (conf (self w)))
                  else []).
Proof.
  intros w0 w m. split; [reflexivity|].
  apply (no_water_reply_clears silent m w {[1]}).
  - exact silent_relays_respond.
  - exact silent_send_faults_caught.
  - vm_compute. reflexivity.
  - vm_compute. reflexivity.
  - reflexivity.
  - vm_compute. discriminate.
  - reflexivity.
Defined.

(** X2. A reply from the target number whose text is neither the water
    text nor the no-water text still counts as a sign of life, on a bound
    relay board that answers, with send faults that are caught and a
    disconnect threshold whose half does not overflow a float: the
    "restored" round is sent if one was due and the three connection
    counters are reset; the streak, the water flag and the relays are left
    as they were. *)
Theorem unknown_text_resets_connection_only (E : env) (m : sms) (w : world) (b : gset Z) :
  relays_respond E -> send_faults_caught E ->
  relay_board w = Some b ->
  finite_half (disconnect_time (conf (self w))) ->
  number m = phone_number (conf (self w)) ->
  text m <> water_message (conf (self w)) ->
  text m <> no_water_message (conf (self w)) ->
  exists w', parse_message E m w = (Ok tt, w')
    /\ self w' = attributed (self w)
    /\ relay_board w' = Some b
    /\ sent (out w') = sent (out w) ++ restored_round (self w).
Proof.
  intros HE Hs Hb Hfin Hn Hnw Hnd.
  destruct (parse_message_attributes E HE Hs m w b Hb Hfin Hn) as (w1 & [Hs1 Hb1 Hm1 Ho1] & ->).
  rewrite (bool_decide_eq_false_2 _ Hnw), (bool_decide_eq_false_2 _ Hnd).
  eexists. split; [reflexivity|]. cbn.
  rewrite sent_app, app_nil_r, Ho1, Hb1.
  repeat split; try assumption.
Qed.

Lemma unknown_text_resets_connection_only_witness :
  let w0 := snd (__init__ silent (script_config "+491" ["+492"]) 19200 1) in
  let w := snd (while_true (cycle silent) 5 w0) in
  let m := Sms "+491" "battery low" in
  missing_responses (self w) = 5
  /\ exists w', parse_message silent m w = (Ok tt, w')
       /\ self w' = attributed (self w)
       /\ relay_board w' = Some {[2]}
       /\ sent (out w') = sent (out w) ++ restored_round (self w).
Proof.
  intros w0 w m. split; [reflexivity|].
  apply (unknown_text_resets_connection_only silent m w {[2]}).
  - exact silent_relays_respond.
  - exact silent_send_faults_caught.
  - vm_compute. reflexivity.
  - vm_compute. reflexivity.
  - reflexivity.
  - vm_compute. discriminate.
  - vm_compute. discriminate.
Defined.


(** ** Alerts *)

(** X3. On a bound relay board that answers, when whatever [sendSms] raises
    derives from [Exception]: [alert_humans] with one of the four events
    returns, having called [sendSms] once for every operator number, in the
    order of the list, with the text of the event; a send that fails does
    not keep the later ones from being tried.  Object, relays and modem are
    left as they were. *)
Theorem alert_reaches_every_operator (E : env) (event : string) (w : world) (b : gset Z) :
  relays_respond E -> send_faults_caught E ->
  relay_board w = Some b ->
  known_event event ->
  exists w', alert_humans E event w = (Ok tt, w')
    /\ sent (out w')
       = sent (out w) ++ round (alert_text event (self w)) (alert_numbers (conf (self w)))
    /\ self w' = self w
    /\ relay_board w' = Some b
    /\ modem_open w' = modem_open w.
Proof.
  intros HE Hs Hb Hev.
  destruct (alert_humans_frame E HE Hs event w b Hev Hb) as (w' & Hrun & [H1 H2 H3 H4]).
  exists w'. repeat split; try assumption. congruence.
Qed.

Lemma alert_reaches_every_operator_witness :
  let E := sms_fails in
  let w := snd (__init__ E (script_config "+491" ["+492"; "+493"; "+494"]) 19200 1) in
  exists w', alert_humans E "removed" w = (Ok tt, w')
    /\ sent (out w')
       = sent (out w) ++ round (alert_text "removed" (self w)) ["+492"; "+493"; "+494"]
    /\ self w' = self w
    /\ relay_board w' = Some ∅
    /\ modem_open w' = modem_open w.
Proof.
  intros E w.
  apply (alert_reaches_every_operator E "removed" w ∅).
  - intros k. reflexivity.
  - intros k e H. injection H as <-. reflexivity.
  - vm_compute. reflexivity.
  - red. tauto.
Defined.

(** X4. [alert_humans] with an event that is none of the four: with at
    least one operator number it raises [ValueError] naming the event,
    before any SMS is sent and leaving everything as it was; with an empty
    list of operator numbers it returns without any error. *)
Theorem alert_unknown_event (E : env) (event : string) (w : world) :
  ~ known_event event ->
  (alert_numbers (conf (self w)) = [] -> alert_humans E event w = (Ok tt, w))
  /\ (alert_numbers (conf (self w)) <> [] ->
      alert_humans E event w = (Raise (ValueError ("Unknown event " +:+ event)), w)).
Proof.
  intros Hev. unfold alert_humans. rewrite bind_get_self.
  assert (H1 : bool_decide (event = "water") = false)
    by (apply bool_decide_eq_false_2; intros ->; apply Hev; red; tauto).
  assert (H2 : bool_decide (event = "disconnect") = false)
    by (apply bool_decide_eq_false_2; intros ->; apply Hev; red; tauto).
  assert (H3 : bool_decide (event = "restored") = false)
    by (apply bool_decide_eq_false_2; intros ->; apply Hev; red; tauto).
  assert (H4 : bool_decide (event = "removed") = false)
    by (apply bool_decide_eq_false_2; intros ->; apply Hev; red; tauto).
  split.
  - intros ->. reflexivity.
  - intros Hne. destruct (alert_numbers (conf (self w))) as [|d l]; [contradiction|].
    cbn [for_each]. rewrite bind_cases, bind_get_self, H1, H2, H3, H4. reflexivity.
Qed.

Lemma alert_unknown_event_witness :
  let w := snd (__init__ silent (script_config "+491" ["+492"]) 19200 1) in
  alert_humans silent "flood" w = (Raise (ValueError ("Unknown event " +:+ "flood")), w).
Proof.
  intros w.
  assert (Hev : ~ known_event "flood")
    by (intros [H|[H|[H|H]]]; discriminate H).
  exact (proj2 (alert_unknown_event silent "flood" w Hev) ltac:(discriminate)).
Defined.

Lemma request_status_frame (E : env) (w : world) (b : gset Z) :
  relays_respond E -> send_faults_caught E ->
  relay_board w = Some b ->
  exists w', request_status E w = (Ok tt, w')
    /\ self w' = set_awaiting_message true (set_missing_loops 0 (self w))
    /\ sent (out w')
       = sent (out w) ++ [(phone_number (conf (self w)), request_message (conf (self w)))]
    /\ relay_board w' = Some b
    /\ modem_open w' = modem_open w.
Proof.
  intros HE Hs Hb. unfold request_status. rewrite bind_get_self.
  destruct (send_message_frame E HE Hs (phone_number (conf (self w)))
              (request_message (conf (self w))) w b Hb) as (w1 & Hrun & [H1 H2 H3 H4]).
  rewrite (bind_ok _ _ _ _ _ Hrun), !bind_update_self.
  destruct (log (conf (self w))); (eexists; split; [reflexivity|]); cbn;
    rewrite ?sent_app, ?app_nil_r, H1, H2, H3, H4; repeat split; assumption.
Qed.

(** X5. On a bound relay board that answers, when whatever [sendSms] raises
    derives from [Exception]: [request_status] returns, having called
    [sendSms] once, for the target number with the request text, and from
    then on a reply is awaited and no tick is counted as missed; this is so
    even when that [sendSms] raised, that is, when no request went out. *)
Theorem request_status_starts_accounting (E : env) (w : world) (b : gset Z) :
  relays_respond E -> send_faults_caught E ->
  relay_board w = Some b ->
  exists w', request_status E w = (Ok tt, w')
    /\ self w' = set_awaiting_message true (set_missing_loops 0 (self w))
    /\ sent (out w')
       = sent (out w) ++ [(phone_number (conf (self w)), request_message (conf (self w)))]
    /\ relay_board w' = Some b
    /\ modem_open w' = modem_open w.
Proof. exact (request_status_frame E w b). Qed.

Lemma request_status_starts_accounting_witness :
  let E := sms_fails in
  let w := snd (__init__ E (script_config "+491" ["+492"]) 19200 1) in
  sendSms_result E (clock w) = Some (Exn "CmsError" "CMS 500" true)
  /\ exists w', request_status E w = (Ok tt, w')
       /\ self w' = set_awaiting_message true (set_missing_loops 0 (self w))
       /\ sent (out w') = sent (out w) ++ [("+491", "Water?")]
       /\ relay_board w' = Some ∅
       /\ modem_open w' = modem_open w.
Proof.
  intros E w. split; [reflexivity|].
  apply (request_status_starts_accounting E w ∅).
  - intros k. reflexivity.
  - intros k e H. injection H as <-. reflexivity.
  - vm_compute. reflexivity.
Defined.

(** ** The exception handler and the lights *)

(** X6. On a bound relay board that answers, the exception handler returns
    and leaves the relays as it found them: when amber is lit it only reads
    its status (one relay call); when amber is off it switches it on and off
    again (three relay calls).  It sends no SMS and changes neither the
    object nor the modem. *)
Theorem exception_handler_restores_relays
    (E : env) (e : exn) (task : string) (w : world) (b : gset Z) :
  relays_respond E ->
  relay_board w = Some b ->
  exists w', exception_handler E e task w = (Ok tt, w')
    /\ relay_board w' = Some b
    /\ self w' = self w
    /\ modem_open w' = modem_open w
    /\ sent (out w') = sent (out w)
    /\ clock w'
       = (clock w + (if bool_decide (amber_relay (conf (self w)) ∈ b) then 1 else 3))%nat.
Proof.
  intros HE Hb. unfold exception_handler. rewrite bind_print, bind_get_self.
  set (w1 := emit _ w).
  assert (Hb1 : relay_board w1 = Some b) by exact Hb.
  rewrite (bind_ok _ _ _ _ _ (relay_board_get_port_status_ok E _ w1 b HE Hb1)).
  change (self w1) with (self w).
  set (a := amber_relay (conf (self w))).
  assert (Hlog : forall x,
    (if log (conf (self w))
     then try_except
            (load_global "modem" ;;
             v <- modem_signalStrength E ;;
             print ("Signal strength: " +:+ str v +:+ " / 100"))
            (fun _ => print "Unable to get signal strength.")
     else ret tt) x
    = (Ok tt, if log (conf (self w))
              then emit (Print "Unable to get signal strength.") x else x)).
  { intros x. destruct (log (conf (self w))); [apply signal_strength_log_fails | reflexivity]. }
  destruct (bool_decide (a ∈ b)) eqn:Hlit; cbn [negb].
  - rewrite bind_ret, Hlog. eexists. split; [reflexivity|].
    destruct (log (conf (self w))); cbn; rewrite ?sent_app, ?app_nil_r;
      repeat split; try assumption; lia.
  - apply bool_decide_eq_false_1 in Hlit.
    erewrite bind_cases, bind_relay_board_on by (exact HE || exact Hb1).
    unfold sleep. rewrite bind_ret.
    erewrite relay_board_off_ok by (exact HE || reflexivity).
    rewrite Hlog. eexists. split; [reflexivity|].
    rewrite (blink_restores b a Hlit).
    destruct (log (conf (self w))); cbn; rewrite ?sent_app, ?app_nil_r;
      repeat split; try assumption; lia.
Qed.

Lemma exception_handler_restores_relays_witness :
  let w := snd (__init__ silent (script_config "+491" ["+492"]) 19200 1) in
  let e := Exn "CmsError" "CMS 500" true in
  exists w', exception_handler silent e "checking for new messages" w = (Ok tt, w')
    /\ relay_board w' = Some ∅
    /\ self w' = self w
    /\ modem_open w' = modem_open w
    /\ sent (out w') = sent (out w)
    /\ clock w'
       = (clock w + (if bool_decide (amber_relay (conf (self w)) ∈ (∅ : gset Z))
                     then 1 else 3))%nat.
Proof.
  intros w e.
  assert (Hb : relay_board w = Some ∅) by (vm_compute; reflexivity).
  exact (exception_handler_restores_relays silent e "checking for new messages" w ∅
           silent_relays_respond Hb).
Defined.

(** X7. On a bound relay board that answers, with the green channel
    distinct from the red and the amber one: [light "green"] (NORMAL)
    turns green on and turns red and amber off, whatever was lit before. *)
Theorem light_green_normal (E : env) (w : world) (b : gset Z) :
  relays_respond E ->
  relay_board w = Some b ->
  green_relay (conf (self w)) <> red_relay (conf (self w)) ->
  green_relay (conf (self w)) <> amber_relay (conf (self w)) ->
  exists w' b', light E "green" w = (Ok tt, w')
    /\ relay_board w' = Some b'
    /\ green_relay (conf (self w)) ∈ b'
    /\ (red_relay (conf (self w)) ∉ b')
    /\ (amber_relay (conf (self w)) ∉ b')
    /\ self w' = self w /\ out w' = out w.
Proof.
  intros HE Hb Hgr Hga.
  destruct (light_ok E HE "green" w b) as (w' & Hrun & Hs & _ & Ho & Hb'); [tauto | exact Hb |].
  exists w', (green_lit (self w) b). split; [exact Hrun|]. split; [exact Hb'|].
  unfold green_lit.
  rewrite !elem_of_union, !elem_of_difference, !elem_of_singleton.
  repeat split; try assumption; try tauto.
  - intros [H|H]; [tauto | congruence].
  - intros [H|H]; [tauto | congruence].
Qed.

Lemma light_green_normal_witness :
  let w0 := snd (__init__ silent (script_config "+491" ["+492"]) 19200 1) in
  let w := snd (for_each (parse_message silent) [Sms "+491" "1"; Sms "+491" "1"] w0) in
  relay_board w = Some {[1]}
  /\ exists w' b', light silent "green" w = (Ok tt, w')
       /\ relay_board w' = Some b'
       /\ green_relay (conf (self w)) ∈ b'
       /\ (red_relay (conf (self w)) ∉ b')
       /\ (amber_relay (conf (self w)) ∉ b')
       /\ self w' = self w /\ out w' = out w.
Proof.
  intros w0 w.
  assert (Hb : relay_board w = Some {[1]}) by (vm_compute; reflexivity).
  split; [exact Hb|].
  apply (light_green_normal silent w {[1]}).
  - exact silent_relays_respond.
  - exact Hb.
  - vm_compute. discriminate.
  - vm_compute. discriminate.
Defined.

(** X8. The order of two indications matters.  On a bound relay board that
    answers, with three distinct channels: [light "red"] followed by
    [light "amber"] leaves red and amber both lit (water seen, then signal
    lost), whereas [light "amber"] followed by [light "red"] leaves red lit
    alone; green is off either way. *)
Theorem light_order_matters (E : env) (w : world) (b : gset Z) :
  relays_respond E ->
  relay_board w = Some b ->
  red_relay (conf (self w)) <> amber_relay (conf (self w)) ->
  red_relay (conf (self w)) <> green_relay (conf (self w)) ->
  amber_relay (conf (self w)) <> green_relay (conf (self w)) ->
  (exists w' b', (light E "red" ;; light E "amber") w = (Ok tt, w')
     /\ relay_board w' = Some b'
     /\ red_relay (conf (self w)) ∈ b'
     /\ amber_relay (conf (self w)) ∈ b'
     /\ (green_relay (conf (self w)) ∉ b'))
  /\ (exists w' b', (light E "amber" ;; light E "red") w = (Ok tt, w')
     /\ relay_board w' = Some b'
     /\ red_relay (conf (self w)) ∈ b'
     /\ (amber_relay (conf (self w)) ∉ b')
     /\ (green_relay (conf (self w)) ∉ b')).
Proof.
  intros HE Hb Hra Hrg Hag. split.
  - destruct (light_ok E HE "red" w b) as (w1 & Hrun1 & Hs1 & _ & _ & Hb1); [tauto | exact Hb |].
    destruct (light_ok E HE "amber" w1 (lit "red" (self w) b))
      as (w2 & Hrun2 & _ & _ & _ & Hb2); [tauto | exact Hb1 |].
    exists w2, (amber_lit (self w) (red_lit (self w) b)).
    split; [now rewrite (bind_ok _ _ _ _ _ Hrun1)|].
    split; [rewrite Hb2, Hs1; reflexivity|].
    unfold amber_lit, red_lit.
    rewrite !elem_of_union, !elem_of_difference, !elem_of_union, !elem_of_difference,
      !elem_of_singleton.
    repeat split; try tauto.
    intros [H|H]; [tauto | congruence].
  - destruct (light_ok E HE "amber" w b) as (w1 & Hrun1 & Hs1 & _ & _ & Hb1); [tauto | exact Hb |].
    destruct (light_ok E HE "red" w1 (lit "amber" (self w) b))
      as (w2 & Hrun2 & _ & _ & _ & Hb2); [tauto | exact Hb1 |].
    exists w2, (red_lit (self w) (amber_lit (self w) b)).
    split; [now rewrite (bind_ok _ _ _ _ _ Hrun1)|].
    split; [rewrite Hb2, Hs1; reflexivity|].
    unfold amber_lit, red_lit.
    rewrite !elem_of_union, !elem_of_difference, !elem_of_union, !elem_of_difference,
      !elem_of_singleton.
    repeat split; try tauto.
    + intros [H|H]; [tauto | congruence].
    + intros [H|H]; [tauto | congruence].
Qed.

Lemma light_order_matters_witness :
  let w := snd (__init__ silent (script_config "+491" ["+492"]) 19200 1) in
  (exists w' b', (light silent "red" ;; light silent "amber") w = (Ok tt, w')
     /\ relay_board w' = Some b'
     /\ red_relay (conf (self w)) ∈ b'
     /\ amber_relay (conf (self w)) ∈ b'
     /\ (green_relay (conf (self w)) ∉ b'))
  /\ (exists w' b', (light silent "amber" ;; light silent "red") w = (Ok tt, w')
     /\ relay_board w' = Some b'
     /\ red_relay (conf (self w)) ∈ b'
     /\ (amber_relay (conf (self w)) ∉ b')
     /\ (green_relay (conf (self w)) ∉ b')).
Proof.
  intros w.
  apply (light_order_matters silent w ∅).
  - exact silent_relays_respond.
  - vm_compute. reflexivity.
  - vm_compute. discriminate.
  - vm_compute. discriminate.
  - vm_compute. discriminate.
Defined.

(** ** Construction *)

(** X10. Construction with an even [disconnect_time], a modem that
    connects at the first attempt and a relay board that answers returns
    after eight gateway calls with the modem connected, the three counters
    at zero, [missing_loops] and [awaiting_message] not yet bound, and the
    red, amber and green relays all off, whatever was energised when the
    board was opened; every other relay is as the board was opened. *)
Theorem construction_leaves_lights_off (E : env) (c : Config) (baudrate : Z) (fuel : nat) :
  disconnect_time c mod 2 = 0 ->
  connect_result E 0%nat = None ->
  relays_respond E ->
  exists w b, __init__ E c baudrate (S fuel) = (Ok tt, w)
    /\ self w = self (newborn c)
    /\ modem_open w = true
    /\ clock w = 8%nat
    /\ relay_board w = Some b
    /\ (red_relay c ∉ b) /\ (amber_relay c ∉ b) /\ (green_relay c ∉ b)
    /\ (forall x, x <> red_relay c -> x <> amber_relay c -> x <> green_relay c ->
          (x ∈ b <-> x ∈ power_on E)).
Proof.
  intros Heven Hconnect HE.
  unfold __init__, init_body. rewrite bind_get_self. cbn [self newborn conf].
  rewrite Heven. cbn [Z.eqb negb]. rewrite !bind_ret.
  set (w0 := newborn c).
  set (w1 := if log c then emit (Print "Connecting modem") w0 else w0).
  assert (H1 : (if log c then print "Connecting modem" else ret tt) w0 = (Ok tt, w1))
    by (subst w1; now destruct (log c)).
  rewrite (bind_ok _ _ _ _ _ H1).
  assert (Hc1 : clock w1 = 0%nat) by (subst w1; now destruct (log c)).
  set (w2 := advance (with_modem true w1)).
  assert (H2 : connect_loop E baudrate (S fuel) w1 = (Ok tt, w2)).
  { cbn [connect_loop]. rewrite bind_cases. unfold try_except, modem_connect.
    assert (Hg : gateway (connect_result E) (with_modem true) w1 = (Ok tt, w2))
      by (apply gateway_ok; rewrite Hc1; exact Hconnect).
    rewrite bind_cases, Hg. reflexivity. }
  rewrite (bind_ok _ _ _ _ _ H2).
  set (w3 := if log c then emit (Print "Connecting relay board") w2 else w2).
  assert (H3 : (if log c then print "Connecting relay board" else ret tt) w2 = (Ok tt, w3))
    by (subst w3; now destruct (log c)).
  rewrite (bind_ok _ _ _ _ _ H3).
  unfold relay_board_create. rewrite (bind_ok _ _ _ _ _ (gateway_ok _ _ w3 (HE _))).
  rewrite !bind_update_self. unfold sleep.
  repeat first [ erewrite (bind_relay_board_on E HE) by reflexivity
               | erewrite (bind_relay_board_off E HE) by reflexivity
               | rewrite bind_ret ].
  erewrite relay_board_off_ok by (exact HE || reflexivity).
  do 2 eexists. split; [reflexivity|].
  assert (Hs3 : self w3 = self w0) by (subst w3 w2 w1; now destruct (log c)).
  assert (Hm3 : modem_open w3 = true) by (subst w3 w2 w1; now destruct (log c)).
  assert (Hc3 : clock w3 = 1%nat) by (subst w3 w2 w1; now destruct (log c)).
  cbn. rewrite Hs3, Hm3, Hc3.
  split; [reflexivity|]. split; [reflexivity|]. split; [reflexivity|].
  split; [reflexivity|].
  repeat split;
    rewrite ?elem_of_difference, ?elem_of_union, ?elem_of_difference, ?elem_of_union,
      ?elem_of_difference, ?elem_of_union, ?elem_of_singleton; try tauto.
Qed.

Lemma construction_leaves_lights_off_witness :
  let c := script_config "+491" ["+492"] in
  exists w b, __init__ silent c 19200 1 = (Ok tt, w)
    /\ self w = self (newborn c)
    /\ modem_open w = true
    /\ clock w = 8%nat
    /\ relay_board w = Some b
    /\ (red_relay c ∉ b) /\ (amber_relay c ∉ b) /\ (green_relay c ∉ b)
    /\ (forall x, x <> red_relay c -> x <> amber_relay c -> x <> green_relay c ->
          (x ∈ b <-> x ∈ power_on silent)).
Proof.
  intros c.
  apply (construction_leaves_lights_off silent c 19200 0).
  - reflexivity.
  - reflexivity.
  - exact silent_relays_respond.
Defined.

(** X11. The retry loop of the constructor never retries.  When the first
    connection attempt raises an exception that derives from [Exception],
    the handler is entered before [self.relay_board] is bound and raises
    [AttributeError], which ends the construction after that single attempt:
    the modem is not connected, the relay board is never opened, and the
    last line on the console is the handler's first one. *)
Theorem connection_is_never_retried
    (E : env) (c : Config) (baudrate : Z) (fuel : nat) (e : exn) :
  disconnect_time c mod 2 = 0 ->
  connect_result E 0%nat = Some e ->
  ordinary e = true ->
  exists w, __init__ E c baudrate (S fuel) = (Raise (AttributeError "relay_board"), w)
    /\ clock w = 1%nat
    /\ modem_open w = false
    /\ relay_board w = None
    /\ printed (out w)
       = (if log c then ["Connecting modem"] else [])
           ++ [encountered e "connecting the modem. Trying again"].
Proof.
  intros Heven Hconnect Hord.
  unfold __init__, init_body. rewrite bind_get_self. cbn [self newborn conf].
  rewrite Heven. cbn [Z.eqb negb]. rewrite !bind_ret.
  set (w0 := newborn c).
  set (w1 := if log c then emit (Print "Connecting modem") w0 else w0).
  assert (H1 : (if log c then print "Connecting modem" else ret tt) w0 = (Ok tt, w1))
    by (subst w1; now destruct (log c)).
  rewrite (bind_ok _ _ _ _ _ H1).
  assert (Hc1 : clock w1 = 0%nat) by (subst w1; now destruct (log c)).
  assert (Hb1 : relay_board w1 = None) by (subst w1; now destruct (log c)).
  set (task := "connecting the modem. Trying again").
  set (w2 := emit (Print (encountered e task)) (advance w1)).
  assert (H2 : connect_loop E baudrate (S fuel) w1
               = (Raise (AttributeError "relay_board"), w2)).
  { cbn [connect_loop]. rewrite bind_cases. unfold try_except, modem_connect.
    assert (Hg : gateway (connect_result E) (with_modem true) w1 = (Raise e, advance w1))
      by (unfold gateway; now rewrite Hc1, Hconnect).
    rewrite bind_cases, Hg, Hord, bind_cases.
    unfold exception_handler. fold (encountered e task).
    rewrite bind_print, bind_get_self, bind_cases, relay_board_get_port_status_run.
    cbn [relay_board emit advance]. rewrite Hb1. reflexivity. }
  rewrite (bind_raise _ _ _ _ _ H2).
  exists w2. split; [reflexivity|].
  subst w2 w1 w0. destruct (log c); now repeat split.
Qed.

Lemma connection_is_never_retried_witness :
  let c := script_config "+491" ["+492"] in
  let e := Exn "TimeoutException" "" true in
  exists w, __init__ modem_unreachable c 19200 5 = (Raise (AttributeError "relay_board"), w)
    /\ clock w = 1%nat
    /\ modem_open w = false
    /\ relay_board w = None
    /\ printed (out w)
       = (if log c then ["Connecting modem"] else [])
           ++ [encountered e "connecting the modem. Trying again"].
Proof.
  intros c e.
  apply (connection_is_never_retried modem_unreachable c 19200 4 e).
  - reflexivity.
  - reflexivity.
  - reflexivity.
Defined.

Lemma init_checks_disconnect_time_only_witness :
  let c := with_thresholds 7 4 (script_config "+491" ["+492"]) in
  __init__ silent c 19200 1
  = (Raise (ValueError "'water_time' must be a multiple of 2!"), newborn c).
Proof.
  intros c.
  apply (init_checks_disconnect_time_only silent c 19200 1).
  vm_compute. discriminate.
Defined.

(** ** Cycles *)

Lemma failed_drain_counts_as_empty_witness :
  let E := drain_fails in
  let w := snd (request_status E
                  (snd (__init__ E (script_config "+491" ["+492"]) 19200 1))) in
  exists w', check_for_answer E w = (Ok tt, w')
    /\ self w' = set_missing_loops (0 + 1) (self w).
Proof.
  intros E w.
  apply (failed_drain_counts_as_empty E w (Exn "TimeoutException" "" true) ∅ 0).
  - intros k. reflexivity.
  - vm_compute. reflexivity.
  - reflexivity.
  - reflexivity.
  - reflexivity.
  - reflexivity.
Defined.

(** X13. Under any environment, with a disconnect threshold below 2^53 in
    magnitude (where the float quotient [disconnect_time / 2] is the exact
    half): when, at the end of a cycle, [missing_responses] (counted up
    first if [missing_loops] is 12) is below half the disconnect threshold,
    [cycle_end] makes no gateway call at all: no SMS is sent and relays and
    modem are untouched; of the object only [missing_responses] may have
    changed. *)
Theorem cycle_end_below_threshold (E : env) (w : world) (n : Z) :
  missing_loops (self w) = Some n ->
  exact_half (disconnect_time (conf (self w))) ->
  let missing := if n =? 12 then missing_responses (self w) + 1
                 else missing_responses (self w) in
  2 * missing < disconnect_time (conf (self w)) ->
  exists w', cycle_end E w = (Ok tt, w')
    /\ missing_responses (self w') = missing
    /\ same_but_responses (self w) (self w')
    /\ relay_board w' = relay_board w
    /\ modem_open w' = modem_open w
    /\ sent (out w') = sent (out w)
    /\ clock w' = clock w.
Proof.
  intros Hn Hex missing Hlt.
  apply (cycle_end_no_alert E w n Hn (exact_half_finite _ Hex)).
  rewrite (ge_quot_exact _ _ Hex). apply Z.leb_gt. exact Hlt.
Qed.

Lemma cycle_end_below_threshold_witness :
  let w0 := snd (__init__ silent (script_config "+491" ["+492"]) 19200 1) in
  let w := snd (for_range (tick silent) 0 12 w0) in
  exists w', cycle_end silent w = (Ok tt, w')
    /\ missing_responses (self w') = 1
    /\ same_but_responses (self w) (self w')
    /\ relay_board w' = relay_board w
    /\ modem_open w' = modem_open w
    /\ sent (out w') = sent (out w)
    /\ clock w' = clock w.
Proof.
  intros w0 w.
  apply (cycle_end_below_threshold silent w 12).
  - reflexivity.
  - vm_compute. reflexivity.
  - vm_compute. reflexivity.
Defined.

Section Quiet.

Variable E : env.
Hypothesis relays : relays_respond E.
Hypothesis sends : send_faults_caught E.
Hypothesis quiet : inbox_quiet E.

Lemma check_for_answer_quiet w b s0 k :
  relay_board w = Some b ->
  self w = set_awaiting_message true (set_missing_loops k s0) ->
  exists w', check_for_answer E w = (Ok tt, w')
    /\ self w' = set_awaiting_message true (set_missing_loops (k + 1) s0)
    /\ relay_board w' = Some b
    /\ modem_open w' = modem_open w
    /\ sent (out w') = sent (out w).
Proof.
  intros Hb Hs.
  assert (Hlist : exists w1,
    try_except (modem_listStoredSms E)
      (fun e => exception_handler E e "checking for new messages" ;; ret []) w
    = (Ok [], w1) /\ frame w w1 []).
  { unfold try_except, modem_listStoredSms. pose proof (quiet (clock w)) as Hq.
    destruct (listStoredSms_result E (clock w)) as [e|msgs].
    - rewrite Hq.
      destruct (exception_handler_frame E e "checking for new messages" (advance w) b relays Hb)
        as (w1 & Hrun & Hfr).
      exists w1. rewrite (bind_ok _ _ _ _ _ Hrun). split; [reflexivity|].
      destruct Hfr as [F1 F2 F3 F4]. split; assumption.
    - subst msgs. exists (advance w). split; [reflexivity|].
      split; try reflexivity. cbn. now rewrite app_nil_r. }
  destruct Hlist as (w1 & Hrun & [H1 H2 H3 H4]).
  unfold check_for_answer. rewrite (bind_ok _ _ _ _ _ Hrun).
  cbn [length Nat.eqb for_each]. rewrite bind_cases.
  rewrite (bind_attribute "awaiting_message" awaiting_message _ w1 true)
    by (rewrite H1, Hs; reflexivity).
  rewrite (bind_attribute "missing_loops" missing_loops _ w1 k)
    by (rewrite H1, Hs; reflexivity).
  eexists. split; [reflexivity|]. cbn. rewrite H1, Hs, H2, H3, H4, app_nil_r.
  now repeat split.
Qed.

Lemma later_ticks_quiet (n : nat) : forall i w b s0 k,
  1 <= i ->
  relay_board w = Some b ->
  self w = set_awaiting_message true (set_missing_loops k s0) ->
  exists w', for_range (tick E) i n w = (Ok tt, w')
    /\ self w' = set_awaiting_message true (set_missing_loops (k + Z.of_nat n) s0)
    /\ relay_board w' = Some b
    /\ modem_open w' = modem_open w
    /\ sent (out w') = sent (out w).
Proof.
  induction n as [|n IH]; intros i w b s0 k Hi Hb Hs.
  - exists w. cbn [for_range]. rewrite Z.add_0_r. now repeat split.
  - cbn [for_range]. rewrite bind_cases. unfold tick at 1.
    destruct (Z.eqb_spec i 0); [lia|]. cbn [debug]. unfold sleep. rewrite !bind_ret.
    destruct (check_for_answer_quiet w b s0 k Hb Hs) as (w1 & Hrun & Hs1 & Hb1 & Hm1 & Ho1).
    rewrite Hrun.
    destruct (IH (i + 1) w1 b s0 (k + 1) ltac:(lia) Hb1 Hs1)
      as (w2 & Hrun2 & Hs2 & Hb2 & Hm2 & Ho2).
    exists w2. split; [exact Hrun2|].
    rewrite Hs2, Hm2, Ho2, Hm1, Ho1. repeat split; try assumption.
    do 2 f_equal. lia.
Qed.

Lemma quiet_ticks w b :
  relay_board w = Some b ->
  exists w', for_range (tick E) 0 12 w = (Ok tt, w')
    /\ self w' = set_awaiting_message true (set_missing_loops 12 (self w))
    /\ relay_board w' = Some b
    /\ modem_open w' = modem_open w
    /\ sent (out w')
       = sent (out w) ++ [(phone_number (conf (self w)), request_message (conf (self w)))].
Proof.
  intros Hb. cbn [for_range]. rewrite bind_cases. unfold tick at 1. cbn [Z.eqb debug].
  destruct (request_status_frame E w b relays sends Hb) as (w1 & Hrun & Hs1 & Ho1 & Hb1 & Hm1).
  rewrite (bind_ok _ _ _ _ _ Hrun). unfold sleep. rewrite bind_ret.
  destruct (check_for_answer_quiet w1 b (self w) 0 Hb1 Hs1)
    as (w2 & Hrun2 & Hs2 & Hb2 & Hm2 & Ho2).
  rewrite Hrun2.
  destruct (later_ticks_quiet 11 (0 + 1) w2 b (self w) (0 + 1) ltac:(lia) Hb2 Hs2)
    as (w3 & Hrun3 & Hs3 & Hb3 & Hm3 & Ho3).
  exists w3. split; [exact Hrun3|].
  rewrite Hs3, Hm3, Ho3, Hm2, Ho2, Hm1, Ho1. now repeat split.
Qed.

End Quiet.

(** X14. A cycle without any reply counts once.  On a bound relay board
    that answers, when whatever [sendSms] raises derives from [Exception],
    every drain of the inbox is empty or fails with such an exception, and
    the disconnect threshold is below 2^53 in magnitude (where the float
    quotient [disconnect_time / 2] is the exact half): one pass of the main
    loop returns, has sent one request to the target number, ends with
    [missing_loops] at 12 and a reply still awaited, and has raised
    [missing_responses] by exactly one; streak and water flag are untouched.
    If the new count is below half the disconnect threshold, nothing else
    was sent and the relays are as before; if it is at or above it, the
    relays are switched as [light "amber"] does and the request is followed
    by one "disconnect" alert to every operator number, and by nothing
    else. *)
Theorem silent_cycle_counts_once (E : env) (w : world) (b : gset Z) :
  relays_respond E -> send_faults_caught E -> inbox_quiet E ->
  relay_board w = Some b ->
  exact_half (disconnect_time (conf (self w))) ->
  exists w', cycle E w = (Ok tt, w')
    /\ missing_responses (self w') = missing_responses (self w) + 1
    /\ missing_loops (self w') = Some 12
    /\ awaiting_message (self w') = Some true
    /\ times_water_detected (self w') = times_water_detected (self w)
    /\ water (self w') = water (self w)
    /\ if disconnect_time (conf (self w)) <=? 2 * (missing_responses (self w) + 1)
       then relay_board w' = Some (amber_lit (self w) b)
            /\ sent (out w')
               = sent (out w)
                   ++ [(phone_number (conf (self w)), request_message (conf (self w)))]
                   ++ round ("The connection to the flood monitoring system at XFEL has been lost for "
                               +:+ str ((missing_responses (self w) + 1) * 2) +:+ "m.")
                        (alert_numbers (conf (self w)))
       else relay_board w' = Some b
            /\ sent (out w')
               = sent (out w)
                   ++ [(phone_number (conf (self w)), request_message (conf (self w)))].
Proof.
  intros HE Hs Hq Hb Hex. unfold cycle.
  destruct (quiet_ticks E HE Hs Hq w b Hb) as (w1 & Hrun & Hs1 & Hb1 & Hm1 & Ho1).
  rewrite (bind_ok _ _ _ _ _ Hrun).
  assert (Hn1 : missing_loops (self w1) = Some 12) by (now rewrite Hs1).
  assert (Hc1 : conf (self w1) = conf (self w)) by (now rewrite Hs1).
  assert (Hr1 : missing_responses (self w1) = missing_responses (self w)) by (now rewrite Hs1).
  assert (Hex1 : exact_half (disconnect_time (conf (self w1)))) by (now rewrite Hc1).
  rewrite <- (ge_quot_exact _ _ Hex), <- Hc1, <- Hr1.
  destruct (ge_quot (missing_responses (self w1) + 1)
              (float_half (disconnect_time (conf (self w1))))) eqn:Hge.
  - destruct (cycle_end_alerts E w1 b 12 HE Hs Hb1 Hn1 (exact_half_finite _ Hex1) Hge)
      as (w2 & Hrun2 & Hm2 & Hsame & Hb2 & _ & Ho2).
    cbn [Z.eqb] in Hm2, Ho2.
    destruct Hsame as (_ & Hwater & Htimes & Hloops & Hawait).
    exists w2. split; [exact Hrun2|].
    rewrite Hm2, Hwater, Htimes, Hloops, Hawait, Hb2, Ho2, Ho1, Hs1, <- app_assoc.
    now repeat split.
  - destruct (cycle_end_no_alert E w1 12 Hn1 (exact_half_finite _ Hex1) Hge)
      as (w2 & Hrun2 & Hm2 & Hsame & Hb2 & _ & Ho2 & _).
    cbn [Z.eqb] in Hm2.
    destruct Hsame as (_ & Hwater & Htimes & Hloops & Hawait).
    exists w2. split; [exact Hrun2|].
    rewrite Hm2, Hwater, Htimes, Hloops, Hawait, Hb2, Hb1, Ho2, Ho1, Hs1.
    now repeat split.
Qed.

Lemma silent_cycle_counts_once_witness :
  let E := drain_fails in
  let w := snd (__init__ E (script_config "+491" ["+492"]) 19200 1) in
  exists w', cycle E w = (Ok tt, w')
    /\ missing_responses (self w') = missing_responses (self w) + 1
    /\ missing_loops (self w') = Some 12
    /\ awaiting_message (self w') = Some true
    /\ times_water_detected (self w') = times_water_detected (self w)
    /\ water (self w') = water (self w)
    /\ relay_board w' = Some ∅
    /\ sent (out w') = sent (out w) ++ [("+491", "Water?")].
Proof.
  intros E w.
  apply (silent_cycle_counts_once E w ∅).
  - intros k. reflexivity.
  - intros k e H. discriminate H.
  - intros k. reflexivity.
  - vm_compute. reflexivity.
  - vm_compute. reflexivity.
Defined.

(** ** What every run keeps, whatever the gateways do *)

#[local] Instance same_counters_preorder : PreOrder same_counters.
Proof.
  split.
  - intros s. now repeat split.
  - intros s1 s2 s3 (a1 & b1 & c1) (a2 & b2 & c2). unfold same_counters.
    repeat split; congruence.
Qed.

#[local] Instance stays_stopped_preorder : PreOrder stays_stopped.
Proof.
  split.
  - intros s H. exact H.
  - intros s1 s2 s3 H12 H23 H. exact (H23 (H12 H)).
Qed.

#[local] Instance stays_nonneg_preorder : PreOrder stays_nonneg.
Proof.
  split.
  - intros s H. exact H.
  - intros s1 s2 s3 H12 H23 H. exact (H23 (H12 H)).
Qed.

Section Respect.

Context (R : relation WaterAlarm) `{!PreOrder R}.

Hypothesis water_ok : forall v s, R s (set_water v s).

Lemma moves_update_status_any E : moves R (update_status E).
Proof.
  unfold update_status.
  apply (moves_bind R); [now apply (moves_still R) | intros s].
  destruct (times_water_detected s =? 0).
  - apply (moves_bind R); [apply (moves_light R) | intros _].
    apply (moves_bind R).
    { destruct (water s); [apply (moves_alert_humans R) | now apply (moves_still R)]. }
    intros _. apply (moves_bind R); [now apply (moves_update_self R) | intros _].
    destruct (log (conf s)); now apply (moves_still R).
  - apply (moves_bind R).
    { destruct (0 <? _); [|now apply (moves_still R)].
      apply (moves_bind R); [apply (moves_half R) | intros q].
      now apply (moves_still R). }
    intros below. destruct below; [now apply (moves_still R)|].
    apply (moves_bind R); [apply (moves_half R) | intros q].
    destruct (ge_quot _ _); [|now apply (moves_still R)].
    apply (moves_bind R); [apply (moves_light R) | intros _].
    apply (moves_bind R); [apply (moves_alert_humans R) | intros _].
    apply (moves_bind R); [now apply (moves_update_self R) | intros _].
    now apply (moves_still R).
Qed.

Hypothesis times_up_ok :
  forall s, R s (set_times_water_detected (times_water_detected s + 1) s).
Hypothesis times_zero_ok : forall s, R s (set_times_water_detected 0 s).
Hypothesis responses_zero_ok : forall s, R s (set_missing_responses 0 s).
Hypothesis loops_zero_ok : forall s, R s (set_missing_loops 0 s).
Hypothesis awaiting_false_ok : forall s, R s (set_awaiting_message false s).

Lemma moves_parse_message_any E m : moves R (parse_message E m).
Proof.
  unfold parse_message.
  apply (moves_bind R); [now apply (moves_still R) | intros s].
  destruct (bool_decide (number m = _)); [|now apply (moves_still R)].
  apply (moves_bind R); [apply (moves_half R) | intros q].
  apply (moves_bind R).
  { destruct (ge_quot _ _); [apply (moves_alert_humans R) | now apply (moves_still R)]. }
  intros _. apply (moves_bind R); [now apply (moves_update_self R) | intros _].
  apply (moves_bind R); [now apply (moves_update_self R) | intros _].
  apply (moves_bind R); [now apply (moves_update_self R) | intros _].
  destruct (bool_decide (text m = water_message _)).
  - apply (moves_bind R); [now apply (moves_update_self R) | intros _].
    apply moves_update_status_any.
  - destruct (bool_decide (text m = no_water_message _)); [|now apply (moves_still R)].
    apply (moves_bind R); [now apply (moves_update_self R) | intros _].
    apply moves_update_status_any.
Qed.

Hypothesis loops_up_ok :
  forall s n, awaiting_message s = Some true -> missing_loops s = Some n ->
              R s (set_missing_loops (n + 1) s).

Lemma moves_check_for_answer_any E : moves R (check_for_answer E).
Proof.
  unfold check_for_answer.
  apply (moves_bind R).
  { apply (moves_try_except R); [apply (moves_modem_listStoredSms R)|].
    intros e. apply (moves_bind R); [apply (moves_exception_handler R)|].
    intros _. now apply (moves_still R). }
  intros msgs. apply (moves_bind R).
  - destruct (length msgs =? 0)%nat; [|now apply (moves_still R)].
    intros w. unfold bind, attribute, update_self, ret.
    destruct (awaiting_message (self w)) as [[|]|] eqn:Ha; cbn [snd]; try reflexivity.
    destruct (missing_loops (self w)) as [n|] eqn:Hn; cbn [snd]; try reflexivity.
    now apply loops_up_ok.
  - intros _. apply (moves_for_each R). intros m. apply moves_parse_message_any.
Qed.

Lemma moves_later_ticks_any E (n : nat) : forall i,
  1 <= i -> moves R (for_range (tick E) i n).
Proof.
  induction n as [|n IH]; intros i Hi; cbn [for_range]; [now apply (moves_still R)|].
  apply (moves_bind R); [|intros _; apply IH; lia].
  unfold tick. destruct (Z.eqb_spec i 0); [lia|].
  apply (moves_bind R); [now apply (moves_still R) | intros _].
  apply (moves_bind R); [now apply (moves_still R) | intros _].
  apply moves_check_for_answer_any.
Qed.

Hypothesis responses_up_ok :
  forall s, R s (set_missing_responses (missing_responses s + 1) s).
Hypothesis awaiting_true_ok : forall s, R s (set_awaiting_message true s).

Lemma moves_tick_any E i : moves R (tick E i).
Proof.
  unfold tick.
  apply (moves_bind R).
  { destruct (i =? 0); [|now apply (moves_still R)].
    unfold request_status.
    apply (moves_bind R); [now apply (moves_still R) | intros s].
    apply (moves_bind R); [apply (moves_send_message R) | intros _].
    apply (moves_bind R); [now apply (moves_update_self R) | intros _].
    apply (moves_bind R); [now apply (moves_update_self R) | intros _].
    destruct (log (conf s)); now apply (moves_still R). }
  intros _. apply (moves_bind R); [now apply (moves_still R) | intros _].
  apply moves_check_for_answer_any.
Qed.

Lemma moves_ticks_any E (n : nat) : forall i, moves R (for_range (tick E) i n).
Proof.
  induction n as [|n IH]; intros i; cbn [for_range]; [now apply (moves_still R)|].
  apply (moves_bind R); [apply moves_tick_any | intros _; apply IH].
Qed.

Lemma moves_cycle_any E : moves R (cycle E).
Proof.
  unfold cycle. apply (moves_bind R); [apply moves_ticks_any | intros _].
  unfold cycle_end.
  apply (moves_bind R).
  { apply (moves_still R). intros w. unfold attribute. now destruct (missing_loops (self w)). }
  intros n. apply (moves_bind R).
  { destruct (n =? 12); [|now apply (moves_still R)].
    apply (moves_bind R); [now apply (moves_update_self R) | intros _].
    apply (moves_bind R); [now apply (moves_still R) | intros s].
    now apply (moves_still R). }
  intros _. apply (moves_bind R); [now apply (moves_still R) | intros s].
  apply (moves_bind R); [apply (moves_half R) | intros q].
  destruct (ge_quot _ _); [|now apply (moves_still R)].
  apply (moves_bind R); [now apply (moves_still R) | intros _].
  apply (moves_bind R); [apply (moves_light R) | intros _].
  apply (moves_alert_humans R).
Qed.

Lemma moves_passes_any E (n : nat) : moves R (passes (cycle E) n).
Proof.
  induction n as [|n IH]; cbn [passes]; [now apply (moves_still R)|].
  apply (moves_bind R); [apply moves_cycle_any | intros _; exact IH].
Qed.

Lemma moves_init_body_any E baudrate fuel : moves R (init_body E baudrate fuel).
Proof.
  assert (Hconnect : forall f, moves R (connect_loop E baudrate f)).
  { induction f as [|f IH]; cbn [connect_loop]; [now apply (moves_still R)|].
    apply (moves_bind R).
    - apply (moves_try_except R).
      + apply (moves_bind R); [|intros _; now apply (moves_still R)].
        now apply (moves_gateway R).
      + intros e. apply (moves_bind R);
          [apply (moves_exception_handler R) | intros _; now apply (moves_still R)].
    - intros [|]; [now apply (moves_still R) | exact IH]. }
  unfold init_body.
  apply (moves_bind R); [now apply (moves_still R) | intros s].
  apply (moves_bind R); [destruct (negb _); now apply (moves_still R) | intros _].
  apply (moves_bind R); [destruct (negb _); now apply (moves_still R) | intros _].
  apply (moves_bind R); [destruct (log _); now apply (moves_still R) | intros _].
  apply (moves_bind R); [apply Hconnect | intros _].
  apply (moves_bind R); [destruct (log _); now apply (moves_still R) | intros _].
  apply (moves_bind R); [now apply (moves_gateway R) | intros _].
  do 3 (apply (moves_bind R); [now apply (moves_update_self R) | intros _]).
  repeat first [ apply (moves_relay_board_on R)
               | apply (moves_relay_board_off R)
               | apply (moves_bind R); [|intros _]
               | now apply (moves_still R) ].
Qed.

End Respect.

(** X15. Under any environment: when [parse_message] returns for a message
    from the target number, whatever its text, the three connection
    counters have been reset: [missing_responses] is 0, [missing_loops] is 0
    and no reply is awaited.  (Hence, with a positive disconnect threshold,
    the next reply sends no "restored" alert.) *)
Theorem reply_resets_counters (E : env) (m : sms) (w : world) :
  number m = phone_number (conf (self w)) ->
  fst (parse_message E m w) = Ok tt ->
  missing_responses (self (snd (parse_message E m w))) = 0
  /\ missing_loops (self (snd (parse_message E m w))) = Some 0
  /\ awaiting_message (self (snd (parse_message E m w))) = Some false.
Proof.
  intros Hn. unfold parse_message. rewrite bind_get_self, (bool_decide_eq_true_2 _ Hn).
  destruct (half_overflows (disconnect_time (conf (self w)))) eqn:Hov.
  { rewrite bind_cases, (half_overflow_raises _ _ Hov). intros H. discriminate H. }
  rewrite (bind_half _ _ _ Hov), bind_cases.
  destruct ((if ge_quot _ _ then alert_humans E "restored" else ret tt) w) as [[[]|e|] w1];
    cbn [fst]; try discriminate.
  intros _. rewrite !bind_update_self.
  set (w2 := with_self (set_awaiting_message false _) _).
  set (k := if bool_decide (text m = water_message (conf (self w))) then _ else _).
  assert (Hk : moves same_counters k).
  { subst k. destruct (bool_decide (text m = water_message _)).
    - apply (moves_bind same_counters);
        [apply (moves_update_self same_counters); intros s; now repeat split | intros _].
      apply (moves_update_status_any same_counters). intros v s. now repeat split.
    - destruct (bool_decide (text m = no_water_message _));
        [|now apply (moves_still same_counters)].
      apply (moves_bind same_counters);
        [apply (moves_update_self same_counters); intros s; now repeat split | intros _].
      apply (moves_update_status_any same_counters). intros v s. now repeat split. }
  destruct (Hk w2) as (H1 & H2 & H3). rewrite H1, H2, H3. now repeat split.
Qed.

Lemma reply_resets_counters_witness :
  let w0 := snd (__init__ silent (script_config "+491" ["+492"]) 19200 1) in
  let w := snd (while_true (cycle silent) 5 w0) in
  let m := Sms "+491" "0" in
  missing_responses (self w) = 5
  /\ missing_responses (self (snd (parse_message silent m w))) = 0
  /\ missing_loops (self (snd (parse_message silent m w))) = Some 0
  /\ awaiting_message (self (snd (parse_message silent m w))) = Some false.
Proof.
  intros w0 w m. split; [reflexivity|].
  apply (reply_resets_counters silent m w).
  - reflexivity.
  - vm_compute. reflexivity.
Defined.

Lemma stopped_later_ticks E (n : nat) (i : Z) :
  1 <= i -> moves stays_stopped (for_range (tick E) i n).
Proof.
  apply (moves_later_ticks_any stays_stopped);
    unfold stays_stopped, accounting_stopped; cbn; intros; intuition congruence.
Qed.

(** X16. Under any environment: once a reply has been attributed in a
    cycle (no reply awaited, [missing_loops] at 0), the remaining ticks of
    the cycle count nothing, whatever arrives and whatever fails; at the end
    of the cycle [missing_loops] is still 0, so [cycle_end] does not count
    the cycle as one without reply: it leaves [missing_responses] alone. *)
Theorem no_count_after_reply (E : env) (i : Z) (n : nat) (w : world) :
  1 <= i ->
  accounting_stopped (self w) ->
  accounting_stopped (self (snd (for_range (tick E) i n w)))
  /\ missing_responses (self (snd (cycle_end E (snd (for_range (tick E) i n w)))))
     = missing_responses (self (snd (for_range (tick E) i n w))).
Proof.
  intros Hi Hw.
  pose proof (stopped_later_ticks E n i Hi w Hw) as Hstop.
  split; [exact Hstop|].
  set (w1 := snd (for_range (tick E) i n w)) in *.
  destruct Hstop as [_ Hn].
  unfold cycle_end. rewrite (bind_attribute "missing_loops" missing_loops _ w1 0 Hn).
  cbn [Z.eqb]. rewrite bind_ret, bind_get_self.
  destruct (half_overflows (disconnect_time (conf (self w1)))) eqn:Hov.
  { now rewrite bind_cases, (half_overflow_raises _ _ Hov). }
  rewrite (bind_half _ _ _ Hov).
  destruct (ge_quot _ _); [|reflexivity].
  rewrite bind_print.
  assert (Hk : moves same_counters (light E "amber" ;; alert_humans E "disconnect")).
  { apply (moves_bind same_counters); [apply (moves_light same_counters) | intros _].
    apply (moves_alert_humans same_counters). }
  match goal with
  | |- context [bind _ _ ?x] => destruct (Hk x) as (H1 & _); exact H1
  end.
Qed.

Lemma no_count_after_reply_witness :
  let E := stranger_writes in
  let w0 := snd (request_status E
                   (snd (__init__ E (script_config "+491" ["+492"]) 19200 1))) in
  let w := snd (parse_message E (Sms "+491" "0") w0) in
  accounting_stopped (self (snd (for_range (tick E) 1 11 w)))
  /\ missing_responses (self (snd (cycle_end E (snd (for_range (tick E) 1 11 w)))))
     = missing_responses (self (snd (for_range (tick E) 1 11 w))).
Proof.
  intros E w0 w.
  apply (no_count_after_reply E 1 11 w).
  - lia.
  - split; reflexivity.
Defined.

Lemma nonneg_loop E (n j : nat) :
  moves stays_nonneg (passes (cycle E) n ;; for_range (tick E) 0 j).
Proof.
  apply (moves_bind stays_nonneg); [|intros _].
  - apply (moves_passes_any stays_nonneg);
      unfold stays_nonneg, counters_nonneg; cbn; intros; lia.
  - apply (moves_ticks_any stays_nonneg);
      unfold stays_nonneg, counters_nonneg; cbn; intros; lia.
Qed.

Lemma nonneg_init E c baudrate fuel :
  counters_nonneg (self (snd (__init__ E c baudrate fuel))).
Proof.
  assert (H : moves stays_nonneg (init_body E baudrate fuel)).
  { apply (moves_init_body_any stays_nonneg);
      unfold stays_nonneg, counters_nonneg; cbn; intros; lia. }
  apply (H (newborn c)). split; cbn; lia.
Qed.

(** X17. From any construction that returns, under any environment and at
    every tick boundary of every pass of the main loop, also when an
    exception cuts the run short: neither the streak
    [times_water_detected] nor [missing_responses] is ever negative. *)
Theorem counters_never_negative
    (E : env) (c : Config) (baudrate : Z) (fuel : nat) (w0 : world) (n j : nat) :
  __init__ E c baudrate fuel = (Ok tt, w0) ->
  counters_nonneg (self (snd ((passes (cycle E) n ;; for_range (tick E) 0 j) w0))).
Proof.
  intros Hinit. apply (nonneg_loop E n j w0).
  pose proof (nonneg_init E c baudrate fuel) as H. now rewrite Hinit in H.
Qed.

Lemma counters_never_negative_witness :
  let c := script_config "+491" ["+492"] in
  let w0 := snd (__init__ stranger_writes c 19200 1) in
  counters_nonneg
    (self (snd ((passes (cycle stranger_writes) 3 ;; for_range (tick stranger_writes) 0 7) w0))).
Proof.
  intros c w0.
  apply (counters_never_negative stranger_writes c 19200 1 w0 3 7).
  vm_compute. reflexivity.
Defined.

(** ** Edges *)

(** X18. [check_for_answer] relies on a request having been made: on an
    object on which [awaiting_message] is not bound yet (as the constructor
    leaves it), an empty drain raises [AttributeError] for that attribute,
    whereas a drain that returns messages does not read it and is parsed
    as usual. *)
Theorem check_for_answer_before_request (E : env) (w : world) (msgs : list sms) :
  awaiting_message (self w) = None ->
  listStoredSms_result E (clock w) = inr msgs ->
  (msgs = [] ->
     check_for_answer E w = (Raise (AttributeError "awaiting_message"), advance w))
  /\ (msgs <> [] ->
     check_for_answer E w = for_each (parse_message E) msgs (advance w)).
Proof.
  intros Ha Hdrain.
  assert (Hlist : try_except (modem_listStoredSms E)
                    (fun e => exception_handler E e "checking for new messages" ;; ret []) w
                  = (Ok msgs, advance w)).
  { unfold try_except, modem_listStoredSms. now rewrite Hdrain. }
  unfold check_for_answer. rewrite (bind_ok _ _ _ _ _ Hlist). split.
  - intros ->. cbn [length Nat.eqb]. rewrite bind_cases, bind_cases.
    unfold attribute. cbn [self advance]. now rewrite Ha.
  - intros Hne. destruct msgs as [|m l]; [contradiction|].
    cbn [length Nat.eqb]. now rewrite bind_ret.
Qed.

Lemma check_for_answer_before_request_witness :
  let w := snd (__init__ silent (script_config "+491" ["+492"]) 19200 1) in
  check_for_answer silent w = (Raise (AttributeError "awaiting_message"), advance w).
Proof.
  intros w.
  exact (proj1 (check_for_answer_before_request silent w [] eq_refl eq_refl) eq_refl).
Defined.

(** X19. A restored connection does not by itself clear the lost-signal
    light.  On a bound relay board that answers, with send faults that are
    caught and both thresholds below 2^53 in magnitude (where the float
    quotients [disconnect_time / 2] and [water_time / 2] are the exact
    halves): when [missing_responses] is at or above half the disconnect
    threshold and a water reply from the target number arrives that keeps
    the streak below half the water threshold, the "restored" round is sent
    to every operator number and the counters are reset, but no relay is
    switched: an amber light lit by the disconnect stays lit. *)
Theorem restored_keeps_lights (E : env) (m : sms) (w : world) (b : gset Z) :
  relays_respond E -> send_faults_caught E ->
  relay_board w = Some b ->
  exact_half (disconnect_time (conf (self w))) ->
  exact_half (water_time (conf (self w))) ->
  water_reply (conf (self w)) m ->
  0 <= times_water_detected (self w) ->
  2 * (times_water_detected (self w) + 1) < water_time (conf (self w)) ->
  disconnect_time (conf (self w)) <= 2 * missing_responses (self w) ->
  exists w', parse_message E m w = (Ok tt, w')
    /\ relay_board w' = Some b
    /\ sent (out w') = sent (out w) ++ round restored_text (alert_numbers (conf (self w)))
    /\ missing_responses (self w') = 0
    /\ times_water_detected (self w') = times_water_detected (self w) + 1.
Proof.
  intros HE Hs Hb HeD HeW Hm Hpos Hlt Hlost.
  destruct (parse_message_water E HE Hs m w b Hb
              (exact_half_finite _ HeD) (exact_half_finite _ HeW) Hm Hpos)
    as (w' & Hrun & _ & H).
  rewrite (ge_quot_exact _ _ HeW) in H.
  destruct (Z.leb_spec (water_time (conf (self w))) (2 * (times_water_detected (self w) + 1)));
    [lia|].
  destruct H as (Hs' & Hb' & Ho').
  exists w'. split; [exact Hrun|]. split; [exact Hb'|].
  rewrite Ho', Hs'. unfold restored_round. rewrite (ge_quot_exact _ _ HeD).
  destruct (Z.leb_spec (disconnect_time (conf (self w))) (2 * missing_responses (self w)));
    [|lia].
  now repeat split.
Qed.

Lemma restored_keeps_lights_witness :
  let w0 := snd (__init__ silent (script_config "+491" ["+492"]) 19200 1) in
  let w := snd (while_true (cycle silent) 5 w0) in
  let m := Sms "+491" "1" in
  relay_board w = Some {[2]}
  /\ exists w', parse_message silent m w = (Ok tt, w')
       /\ relay_board w' = Some {[2]}
       /\ sent (out w') = sent (out w) ++ round restored_text (alert_numbers (conf (self w)))
       /\ missing_responses (self w') = 0
       /\ times_water_detected (self w') = times_water_detected (self w) + 1.
Proof.
  intros w0 w m.
  assert (Hb : relay_board w = Some {[2]}) by (vm_compute; reflexivity).
  split; [exact Hb|].
  apply (restored_keeps_lights silent m w {[2]}).
  - exact silent_relays_respond.
  - exact silent_send_faults_caught.
  - exact Hb.
  - vm_compute. reflexivity.
  - vm_compute. reflexivity.
  - split; reflexivity.
  - vm_compute. discriminate.
  - vm_compute. reflexivity.
  - vm_compute. discriminate.
Defined.
